(** * The vector store and retriever of reasoning_rag, embedded in Rocq

    Sources embedded here:
    - [src/src/vectorstore/faiss_store.py]  (class [FAISSVectorStore])
    - [src/src/utils/ollama_client.py]      (the embedding and generation calls)
    - [src/src/retrieval/retriever.py]      (class [Retriever])
    - [src/src/rag_pipeline.py]             (the retrieval and deletion steps)

    Python objects keep every mutation made before an exception is raised, so
    the effects are modelled by a state monad whose state survives a raise.
    The world holds the store object, the persisted artifacts and the
    chronological trace of calls made to the outside (embedding provider,
    language model, file system).  What the outside answers is a parameter
    of the development: a function of the trace so far. *)

From Stdlib Require Import String Ascii ZArith Lia Bool Arith PeanoNat List.
From Stdlib Require Import Floats Uint63 Sorted Permutation.
Import ListNotations.

Set Implicit Arguments.

(** ** Data model *)

(** An embedding as the provider returns it: a list of Python floats. *)
Definition Vec := list float.

(** The [context] mapping of a chunk; both fields are read with [.get]. *)
Record Context := mkContext {
  file_name : option string;
  chunk_position : option string
}.

(** A chunk dictionary: the ['text'] key and the optional ['context']. *)
Record Chunk := mkChunk {
  text : string;
  context : option Context
}.

(** [faiss.IndexFlatL2]: the dimension fixed at creation and the rows added
    so far, oldest first. *)
Record Index := mkIndex {
  dim : nat;
  rows : list Vec
}.

Definition ntotal (i : Index) : nat := length (rows i).

(** The attributes of a [FAISSVectorStore] object. *)
Record Store := mkStore {
  index : option Index;
  documents : list string;
  metadata : list Chunk;
  dimension : nat
}.

(** A persisted artifact is readable, or it is there and cannot be read. *)
Inductive File (A : Type) : Type :=
| Intact (a : A)
| Damaged.
Arguments Damaged {A}.

(** A record of the provenance file kept by the pipeline. *)
Record DocInfo := mkDocInfo {
  doc_file_name : string;
  doc_chunks : Z
}.

Record Disk := mkDisk {
  index_file : option (File Index);
  docs_file : option (File (list string));
  meta_file : option (File (list Chunk));
  provenance_file : option (File (list (string * DocInfo)))
}.

Inductive Path := IndexPath | DocsPath | MetaPath | ProvenancePath.

(** Calls to the collaborators (provider, language model, index search,
    file system), in the order they are made. *)
Inductive Event :=
| EmbedCall (prompt : string)
| GenerateCall (prompt : string)
| SearchCall (k : Z)
| WriteCall (p : Path).

Inductive Exn :=
| RequestException
| ValueError
| AssertionError
| IndexError
| ZeroDivisionError
| OSError
| UnpicklingError.

Inductive Outcome (A : Type) : Type :=
| Returned (a : A)
| Raised (e : Exn).
Arguments Raised {A}.

(** What a write to a file may do: complete, fail before touching the file,
    or fail after the file was opened for writing. *)
Inductive WriteReply := WriteDone | WriteRefused | WriteTorn.

(** The process state: the store object, the pipeline's table of processed
    documents (hash to record, in insertion order), the files, the calls. *)
Record World := mkWorld {
  store : Store;
  processed_docs : list (string * DocInfo);
  disk : Disk;
  trace : list Event
}.

(** ** The effect monad *)

Definition M (A : Type) : Type := World -> Outcome A * World.

Definition ret {A} (a : A) : M A := fun w => (Returned a, w).

Definition raise {A} (e : Exn) : M A := fun w => (Raised e, w).

Definition bind {A B} (m : M A) (k : A -> M B) : M B :=
  fun w =>
    match m w with
    | (Returned a, w') => k a w'
    | (Raised e, w') => (Raised e, w')
    end.

(** [try: m except Exception as e: h e] *)
Definition try_except {A} (m : M A) (h : Exn -> M A) : M A :=
  fun w =>
    match m w with
    | (Returned a, w') => (Returned a, w')
    | (Raised e, w') => h e w'
    end.

Definition lift {A} (o : Outcome A) : M A := fun w => (o, w).

Definition gets {A} (f : World -> A) : M A := fun w => (Returned (f w), w).

Definition modify (f : World -> World) : M unit := fun w => (Returned tt, f w).

Declare Scope py_scope.
Delimit Scope py_scope with py.
Notation "x <- m ;; k" := (bind m (fun x => k))
  (at level 100, m at next level, right associativity) : py_scope.
Notation "m ;;; k" := (bind m (fun _ => k))
  (at level 100, right associativity) : py_scope.
Open Scope py_scope.

Definition set_store (s : Store) (w : World) : World :=
  mkWorld s (processed_docs w) (disk w) (trace w).

Definition set_processed_docs (p : list (string * DocInfo)) (w : World) : World :=
  mkWorld (store w) p (disk w) (trace w).

Definition set_disk (dk : Disk) (w : World) : World :=
  mkWorld (store w) (processed_docs w) dk (trace w).

Definition log (ev : Event) (w : World) : World :=
  mkWorld (store w) (processed_docs w) (disk w) (trace w ++ [ev]).

Definition set_index (i : option Index) (s : Store) : Store :=
  mkStore i (documents s) (metadata s) (dimension s).

Definition set_documents (l : list string) (s : Store) : Store :=
  mkStore (index s) l (metadata s) (dimension s).

Definition set_metadata (l : list Chunk) (s : Store) : Store :=
  mkStore (index s) (documents s) l (dimension s).

(** ** Python helpers *)

(** [range(0, stop, step)] for a positive step. *)
Fixpoint range_from (fuel start stop step : nat) : list nat :=
  match fuel with
  | O => []
  | S fuel' =>
      if start <? stop
      then start :: range_from fuel' (start + step) stop step
      else []
  end.

(** [range(0, stop, step)]: a zero step is refused, a negative one gives
    the empty range. *)
Definition py_range (stop : nat) (step : Z) : Outcome (list nat) :=
  if (step =? 0)%Z then Raised ValueError
  else if (step <? 0)%Z then Returned []
  else Returned (range_from stop 0 stop (Z.to_nat step)).

(** [l[i:i+n]] for non-negative bounds. *)
Definition slice {A} (l : list A) (i n : nat) : list A := firstn n (skipn i l).

(** [l[:k]]: a negative [k] counts from the end. *)
Definition py_prefix {A} (l : list A) (k : Z) : list A :=
  if (k <? 0)%Z then firstn (length l - Z.to_nat (- k)) l
  else firstn (Z.to_nat k) l.

(** [np.array(embeddings, dtype='float32')]: rows of different lengths are
    refused. *)
Definition np_array (embs : list Vec) : Outcome (list Vec) :=
  match embs with
  | [] => Returned []
  | v :: vs =>
      if forallb (fun u => length u =? length v) vs
      then Returned embs
      else Raised ValueError
  end.

(** [index.add(x)]: [x] must be a matrix with [dim] columns. *)
Definition faiss_add (i : Index) (x : list Vec) : Outcome Index :=
  match x with
  | [] => Raised ValueError
  | v :: _ =>
      if length v =? dim i
      then Returned (mkIndex (dim i) (rows i ++ x))
      else Raised AssertionError
  end.

(** [meta.get('context', {}).get('file_name', '')] *)
Definition get_file_name (meta : Chunk) : string :=
  match context meta with
  | Some c => match file_name c with Some f => f | None => EmptyString end
  | None => EmptyString
  end.

(** A Python number: [int(score_str)] is an [int], [score * 10] a [float]. *)
Inductive Num :=
| PyInt (z : Z)
| PyFloat (f : float).

(** A record returned by [search]; [rerank_score] is the key added by the
    reranker, absent until then. *)
Record Result := mkResult {
  r_text : string;
  r_metadata : Chunk;
  r_score : float;
  r_distance : float;
  r_rank : Z;
  r_rerank_score : option Num
}.

Definition set_rerank_score (n : Num) (r : Result) : Result :=
  mkResult (r_text r) (r_metadata r) (r_score r) (r_distance r) (r_rank r) (Some n).

(** [similarity = 1 / (1 + float(distance))]; Python refuses to divide by
    zero. *)
Definition similarity_of (distance : float) : Outcome float :=
  let s := (1 + distance)%float in
  if (s =? 0)%float then Raised ZeroDivisionError
  else Returned (1 / s)%float.

(** [threshold <= 0 or similarity >= threshold] *)
Definition passes (threshold similarity : float) : bool :=
  (threshold <=? 0)%float || (threshold <=? similarity)%float.

(** [doc_idx >= 0 and doc_idx < len(self.documents)] *)
Definition valid_slot (docs : list string) (doc_idx : Z) : bool :=
  (0 <=? doc_idx)%Z && (doc_idx <? Z.of_nat (length docs))%Z.

(** The loop of [search] over [enumerate(zip(distances[0], indices[0]))],
    entered at position [idx]. *)
Fixpoint format_results (docs : list string) (metas : list Chunk)
    (threshold : float) (idx : nat) (cands : list (float * Z))
    : Outcome (list Result) :=
  match cands with
  | [] => Returned []
  | (distance, doc_idx) :: rest =>
      if valid_slot docs doc_idx then
        match similarity_of distance with
        | Raised e => Raised e
        | Returned similarity =>
            if passes threshold similarity then
              match nth_error docs (Z.to_nat doc_idx),
                    nth_error metas (Z.to_nat doc_idx) with
              | Some t, Some m =>
                  match format_results docs metas threshold (S idx) rest with
                  | Returned rs =>
                      Returned (mkResult t m similarity distance
                                  (Z.of_nat idx + 1) None :: rs)
                  | Raised e => Raised e
                  end
              | _, _ => Raised IndexError
              end
            else format_results docs metas threshold (S idx) rest
        end
      else format_results docs metas threshold (S idx) rest
  end.

(** The loop of [delete_by_filename] over [enumerate(self.metadata)]:
    the kept positions, texts and records. *)
Fixpoint keep_loop (filename : string) (docs : list string) (idx : nat)
    (metas : list Chunk) : Outcome (list nat * list string * list Chunk) :=
  match metas with
  | [] => Returned ([], [], [])
  | meta :: rest =>
      if String.eqb (get_file_name meta) filename
      then keep_loop filename docs (S idx) rest
      else
        match nth_error docs idx with
        | None => Raised IndexError
        | Some t =>
            match keep_loop filename docs (S idx) rest with
            | Returned (ks, ds, ms) => Returned (idx :: ks, t :: ds, meta :: ms)
            | Raised e => Raised e
            end
        end
  end.

(** [config.EMBEDDING_DIM], [config.SIMILARITY_THRESHOLD],
    [config.TOP_K_RETRIEVAL], [config.RERANK_TOP_K] *)
Definition EMBEDDING_DIM : nat := 768.
Definition SIMILARITY_THRESHOLD : float := 0%float.
Definition TOP_K_RETRIEVAL : Z := 5.
Definition RERANK_TOP_K : Z := 3.

Definition set_index_file (f : option (File Index)) (dk : Disk) : Disk :=
  mkDisk f (docs_file dk) (meta_file dk) (provenance_file dk).

Definition set_docs_file (f : option (File (list string))) (dk : Disk) : Disk :=
  mkDisk (index_file dk) f (meta_file dk) (provenance_file dk).

Definition set_meta_file (f : option (File (list Chunk))) (dk : Disk) : Disk :=
  mkDisk (index_file dk) (docs_file dk) f (provenance_file dk).

Definition set_provenance_file (f : option (File (list (string * DocInfo))))
    (dk : Disk) : Disk :=
  mkDisk (index_file dk) (docs_file dk) (meta_file dk) f.

(** ** Strings and numbers of the reranker *)

Definition nl : string := String (ascii_of_nat 10) EmptyString.

(** A Python string reaches the reranker as the bytes of its UTF-8
    encoding.  Where the code counts or classifies characters ([[:10]],
    [[:500]], [str.isdigit], [int]) the bytes are grouped into characters
    first: a byte from 0x80 to 0xBF continues the character before it. *)
Definition is_continuation (b : ascii) : bool :=
  (128 <=? nat_of_ascii b) && (nat_of_ascii b <? 192).

(** The characters of [l], [cur] being the bytes of the character that is
    being read. *)
Fixpoint chars_from (cur l : list ascii) : list (list ascii) :=
  match l with
  | [] => [cur]
  | b :: rest =>
      if is_continuation b then chars_from (cur ++ [b]) rest
      else cur :: chars_from [b] rest
  end.

(** The characters of a string, each as its bytes. *)
Definition chars (s : string) : list (list ascii) :=
  match list_ascii_of_string s with
  | [] => []
  | b :: rest => chars_from [b] rest
  end.

(** The code point that the bytes of a character encode: the payload bits
    of the leading byte, then six bits of every byte that follows. *)
Definition code_point (c : list ascii) : N :=
  match c with
  | [] => 0%N
  | b0 :: conts =>
      fold_left (fun acc b => (acc * 64 + N_of_ascii b mod 64)%N) conts
        (match conts with
         | [] => N_of_ascii b0
         | [_] => N_of_ascii b0 mod 32
         | [_; _] => N_of_ascii b0 mod 16
         | _ => N_of_ascii b0 mod 8
         end)%N
  end.

(** [s[:n]]: the first [n] characters. *)
Definition str_prefix (n : nat) (s : string) : string :=
  string_of_list_ascii (concat (firstn n (chars s))).

(** The prompt built in [_rerank_with_llm]. *)
Definition rerank_prompt (query : string) (chunk : Result) : string :=
  ("On a scale of 0-10, how relevant is this text to answering the question?"
   ++ nl ++ "Question: " ++ query ++ nl ++ nl
   ++ "Text: " ++ str_prefix 500 (r_text chunk) ++ nl ++ nl
   ++ "Relevance score (0-10):")%string.

(** [chunk['score'] * 10] *)
Definition fallback_score (chunk : Result) : Num :=
  PyFloat (r_score chunk * 10)%float.

(** An [int] seen as a [float]; exact below [2^53], which covers every
    integer that ten characters can spell. *)
Definition float_of_Z (z : Z) : float :=
  if (z <? 0)%Z then (- PrimFloat.of_uint63 (Uint63.of_Z (- z)))%float
  else PrimFloat.of_uint63 (Uint63.of_Z z).

(** Python's [<] on numbers. *)
Definition num_ltb (a b : Num) : bool :=
  match a, b with
  | PyInt x, PyInt y => (x <? y)%Z
  | PyInt x, PyFloat g => (float_of_Z x <? g)%float
  | PyFloat f, PyInt y => (f <? float_of_Z y)%float
  | PyFloat f, PyFloat g => (f <? g)%float
  end.

(** [scored_chunks.sort(key=lambda x: x['rerank_score'], reverse=True)]:
    the stable descending order, each chunk paired with the score stored
    in it.  Only [<] is used, as Python's sort does. *)
Fixpoint insert_desc (x : Num * Result) (l : list (Num * Result))
    : list (Num * Result) :=
  match l with
  | [] => [x]
  | y :: l' =>
      if num_ltb (fst x) (fst y) then y :: insert_desc x l'
      else x :: y :: l'
  end.

Definition sort_desc (l : list (Num * Result)) : list (Num * Result) :=
  fold_right insert_desc [] l.

(** Dictionaries kept in insertion order. *)
Fixpoint dict_set {V} (k : string) (v : V) (d : list (string * V))
    : list (string * V) :=
  match d with
  | [] => [(k, v)]
  | (k', v') :: d' =>
      if String.eqb k' k then (k, v) :: d' else (k', v') :: dict_set k v d'
  end.

Definition dict_update {V} (d new : list (string * V)) : list (string * V) :=
  fold_left (fun acc kv => dict_set (fst kv) (snd kv) acc) new d.

Definition dict_del {V} (k : string) (d : list (string * V)) : list (string * V) :=
  filter (fun kv => negb (String.eqb (fst kv) k)) d.

(** What the collaborators answer, and what the interpreter's character
    tables say.  Each answer may depend on every call made so far, so a
    provider may fail on its third request only. *)
Record Env := mkEnv {
  (** the provider's answer to an embedding request *)
  embed_reply : list Event -> string -> Outcome Vec;
  (** the language model's answer to a prompt *)
  generate_reply : list Event -> string -> Outcome string;
  (** [index.search(query_vector, k)]: the first row of distances zipped
      with the first row of labels *)
  index_search : Index -> Vec -> Z -> Outcome (list (float * Z));
  (** what the file system does with a write *)
  write_reply : list Event -> Path -> WriteReply;
  (** [str.isdigit] on one character, given by its code point *)
  isdigit : N -> bool;
  (** the digit [int] reads a character as, for the characters that are
      decimal digits *)
  decimal : N -> option nat
}.

(** [int(score_str)] on characters that all passed [str.isdigit]: each
    must be a decimal digit, and the empty string is refused. *)
Definition py_int (env : Env) (digits : list N) : Outcome Z :=
  match digits with
  | [] => Raised ValueError
  | _ :: _ =>
      fold_left
        (fun acc c =>
           match acc, decimal env c with
           | Returned a, Some d => Returned (a * 10 + Z.of_nat d)%Z
           | Returned _, None => Raised ValueError
           | Raised e, _ => Raised e
           end)
        digits (Returned 0%Z)
  end.

(** [score_str = ''.join(filter(str.isdigit, response[:10]))] and
    [int(score_str) if score_str else chunk['score'] * 10] *)
Definition score_of_response (env : Env) (response : string) (chunk : Result)
    : Outcome Num :=
  match filter (isdigit env) (map code_point (firstn 10 (chars response))) with
  | [] => Returned (fallback_score chunk)
  | c :: cs =>
      match py_int env (c :: cs) with
      | Returned z => Returned (PyInt z)
      | Raised e => Raised e
      end
  end.

Section Engine.

Variable env : Env.

(** [OllamaClient.get_embedding]: one request; a failure is re-raised. *)
Definition get_embedding (t : string) : M Vec :=
  fun w => (embed_reply env (trace w) t, log (EmbedCall t) w).

(** [OllamaClient.get_embeddings_batch]: one request per text, in order. *)
Fixpoint get_embeddings_batch (texts : list string) : M (list Vec) :=
  match texts with
  | [] => ret []
  | t :: ts =>
      e <- get_embedding t ;;
      es <- get_embeddings_batch ts ;;
      ret (e :: es)
  end.

(** [FAISSVectorStore.create_index] *)
Definition create_index : M unit :=
  modify (fun w =>
    set_store (set_index (Some (mkIndex (dimension (store w)) [])) (store w)) w).

(** The loop of [add_documents] over the batches. *)
Fixpoint embed_batches (batches : list (list string)) : M (list Vec) :=
  match batches with
  | [] => ret []
  | b :: bs =>
      es <- get_embeddings_batch b ;;
      rest <- embed_batches bs ;;
      ret (es ++ rest)
  end.

(** [self.index.add(embeddings_array)] *)
Definition index_add (x : list Vec) : M unit :=
  fun w =>
    match index (store w) with
    | None => (Raised AssertionError, w)
    | Some i =>
        match faiss_add i x with
        | Returned i' => (Returned tt, set_store (set_index (Some i') (store w)) w)
        | Raised e => (Raised e, w)
        end
    end.

(** [FAISSVectorStore.add_documents] *)
Definition add_documents (chunks : list Chunk) (batch_size : Z) : M Z :=
  match chunks with
  | [] => ret 0%Z
  | _ :: _ =>
      i0 <- gets (fun w => index (store w)) ;;
      (match i0 with None => create_index | Some _ => ret tt end) ;;;
      let texts := map text chunks in
      starts <- lift (py_range (length texts) batch_size) ;;
      embeddings <- embed_batches
        (map (fun i => slice texts i (Z.to_nat batch_size)) starts) ;;
      embeddings_array <- lift (np_array embeddings) ;;
      index_add embeddings_array ;;;
      modify (fun w =>
        set_store (set_metadata (metadata (store w) ++ chunks)
                    (set_documents (documents (store w) ++ texts) (store w))) w) ;;;
      ret (Z.of_nat (length chunks))
  end.

(** [FAISSVectorStore.search] *)
Definition search (query : string) (top_k : Z) (threshold : float)
    : M (list Result) :=
  i0 <- gets (fun w => index (store w)) ;;
  match i0 with
  | None => ret []
  | Some i =>
      if ntotal i =? 0 then ret []
      else
        query_embedding <- get_embedding query ;;
        cands <- (fun w => (index_search env i query_embedding top_k,
                            log (SearchCall top_k) w)) ;;
        docs <- gets (fun w => documents (store w)) ;;
        metas <- gets (fun w => metadata (store w)) ;;
        lift (format_results docs metas threshold 0 cands)
  end.

(** [FAISSVectorStore.clear] *)
Definition clear : M unit :=
  create_index ;;;
  modify (fun w => set_store (set_documents [] (store w)) w) ;;;
  modify (fun w => set_store (set_metadata [] (store w)) w).

(** [FAISSVectorStore.delete_by_filename] *)
Definition delete_by_filename (filename : string) : M Z :=
  docs <- gets (fun w => documents (store w)) ;;
  metas <- gets (fun w => metadata (store w)) ;;
  kept <- lift (keep_loop filename docs 0 metas) ;;
  let new_documents := snd (fst kept) in
  let new_metadata := snd kept in
  let removed_count :=
    (Z.of_nat (length docs) - Z.of_nat (length new_documents))%Z in
  (if (0 <? removed_count)%Z then
     modify (fun w => set_store (set_documents new_documents (store w)) w) ;;;
     modify (fun w => set_store (set_metadata new_metadata (store w)) w) ;;;
     create_index ;;;
     match new_documents with
     | [] => ret tt
     | _ :: _ =>
         embeddings <- get_embeddings_batch new_documents ;;
         embeddings_array <- lift (np_array embeddings) ;;
         index_add embeddings_array
     end
   else ret tt) ;;;
  ret removed_count.

(** One write to a file: [put] is the file written whole, [tear] the file
    left behind when the write fails after the file was opened. *)
Definition write_file (p : Path) (put tear : Disk -> Disk) : M unit :=
  fun w =>
    let w1 := log (WriteCall p) w in
    match write_reply env (trace w) p with
    | WriteDone => (Returned tt, set_disk (put (disk w)) w1)
    | WriteRefused => (Raised OSError, w1)
    | WriteTorn => (Raised OSError, set_disk (tear (disk w)) w1)
    end.

(** [FAISSVectorStore.save] *)
Definition save : M unit :=
  i0 <- gets (fun w => index (store w)) ;;
  match i0 with
  | None => ret tt
  | Some i =>
      try_except
        (write_file IndexPath (set_index_file (Some (Intact i)))
                              (set_index_file (Some Damaged)) ;;;
         docs <- gets (fun w => documents (store w)) ;;
         write_file DocsPath (set_docs_file (Some (Intact docs)))
                             (set_docs_file (Some Damaged)) ;;;
         metas <- gets (fun w => metadata (store w)) ;;
         write_file MetaPath (set_meta_file (Some (Intact metas)))
                             (set_meta_file (Some Damaged)))
        (fun e => raise e)
  end.

(** Reading an artifact: a missing file and an unreadable one both raise. *)
Definition read_file {A} (f : Disk -> option (File A)) : M A :=
  fun w =>
    match f (disk w) with
    | Some (Intact a) => (Returned a, w)
    | Some Damaged => (Raised UnpicklingError, w)
    | None => (Raised OSError, w)
    end.

(** [FAISSVectorStore.load] *)
Definition load : M unit :=
  present <- gets (fun w => index_file (disk w)) ;;
  match present with
  | None => ret tt
  | Some _ =>
      try_except
        (i <- read_file index_file ;;
         modify (fun w => set_store (set_index (Some i) (store w)) w) ;;;
         docs <- read_file docs_file ;;
         modify (fun w => set_store (set_documents docs (store w)) w) ;;;
         metas <- read_file meta_file ;;
         modify (fun w => set_store (set_metadata metas (store w)) w))
        (fun _ => create_index)
  end.

(** [FAISSVectorStore.__init__] *)
Definition FAISSVectorStore_init : M unit :=
  modify (set_store (mkStore None [] [] EMBEDDING_DIM)) ;;;
  load.

(** ** The retriever *)

(** [OllamaClient.generate]: one request; a failure is re-raised. *)
Definition generate (prompt : string) : M string :=
  fun w => (generate_reply env (trace w) prompt, log (GenerateCall prompt) w).

(** [Retriever.retrieve] *)
Definition retrieve (query : string) (top_k : Z) : M (list Result) :=
  search query top_k SIMILARITY_THRESHOLD.

(** The scoring loop of [_rerank_with_llm]: every chunk gets its
    [rerank_score]; the bare [except] turns a failed call and a refused
    [int] into the fallback. *)
Fixpoint rerank_loop (query : string) (chunks : list Result)
    : M (list (Num * Result)) :=
  match chunks with
  | [] => ret []
  | chunk :: rest =>
      score <- try_except
                 (response <- generate (rerank_prompt query chunk) ;;
                  lift (score_of_response env response chunk))
                 (fun _ => ret (fallback_score chunk)) ;;
      scored <- rerank_loop query rest ;;
      ret ((score, set_rerank_score score chunk) :: scored)
  end.

(** [Retriever._rerank_with_llm] *)
Definition _rerank_with_llm (query : string) (chunks : list Result)
    (top_k : Z) : M (list Result) :=
  scored_chunks <- rerank_loop query chunks ;;
  ret (py_prefix (map snd (sort_desc scored_chunks)) top_k).

(** [Retriever.retrieve_with_rerank] *)
Definition retrieve_with_rerank (query : string) (top_k rerank_top_k : Z)
    : M (list Result) :=
  initial_results <- retrieve query top_k ;;
  if (Z.of_nat (length initial_results) <=? rerank_top_k)%Z
  then ret initial_results
  else _rerank_with_llm query initial_results rerank_top_k.

(** ** The pipeline *)

(** The retrieval step of [RAGPipeline.query]. *)
Definition query_context (question : string) (top_k : Z) (use_rerank : bool)
    : M (list Result) :=
  if use_rerank then retrieve_with_rerank question (top_k * 2) RERANK_TOP_K
  else retrieve question top_k.

(** [helpers.load_metadata]: a missing or unreadable file is an empty
    table. *)
Definition load_metadata : M (list (string * DocInfo)) :=
  gets (fun w =>
    match provenance_file (disk w) with
    | Some (Intact t) => t
    | _ => []
    end).

(** [helpers.save_metadata] *)
Definition save_metadata (table : list (string * DocInfo)) : M unit :=
  try_except
    (existing <- load_metadata ;;
     write_file ProvenancePath
       (set_provenance_file (Some (Intact (dict_update existing table))))
       (set_provenance_file (Some Damaged)))
    (fun e => raise e).

(** [RAGPipeline.delete_document]: the number of chunks removed. *)
Definition delete_document (filename : string) : M Z :=
  table <- gets processed_docs ;;
  (match find (fun kv => String.eqb (doc_file_name (snd kv)) filename) table with
   | Some (hash_to_remove, _) =>
       if String.eqb hash_to_remove EmptyString then ret tt
       else
         modify (fun w =>
           set_processed_docs (dict_del hash_to_remove (processed_docs w)) w) ;;;
         table' <- gets processed_docs ;;
         save_metadata table'
   | None => ret tt
   end) ;;;
  chunks_removed <- delete_by_filename filename ;;
  (if (0 <? chunks_removed)%Z then save else ret tt) ;;;
  ret chunks_removed.

End Engine.

(** ** The other methods of the store *)

(** The comprehension [[r for r in initial_results if filter_fn(r['metadata'])]]:
    [filter_fn] is the caller's, so it may raise. *)
Fixpoint filter_loop (filter_fn : Chunk -> Outcome bool) (rs : list Result)
    : Outcome (list Result) :=
  match rs with
  | [] => Returned []
  | r :: rest =>
      match filter_fn (r_metadata r) with
      | Raised e => Raised e
      | Returned keep =>
          match filter_loop filter_fn rest with
          | Raised e => Raised e
          | Returned l => Returned (if keep then r :: l else l)
          end
      end
  end.

(** [FAISSVectorStore.search_with_filter] *)
Definition search_with_filter (env : Env) (query : string)
    (filter_fn : Chunk -> Outcome bool) (top_k : Z) : M (list Result) :=
  initial_results <- search env query (top_k * 3) SIMILARITY_THRESHOLD ;;
  filtered_results <- lift (filter_loop filter_fn initial_results) ;;
  ret (py_prefix filtered_results top_k).

(** The dictionary returned by [get_stats]. *)
Record Stats := mkStats {
  total_chunks : nat;
  index_size : nat;
  stats_dimension : nat;
  unique_documents : nat
}.

(** [FAISSVectorStore.get_stats]: [len(set(...))] counts the distinct file
    names, read with the [.get] defaults. *)
Definition get_stats : M Stats :=
  gets (fun w =>
    mkStats (length (documents (store w)))
            (match index (store w) with Some i => ntotal i | None => 0 end)
            (dimension (store w))
            (length (nodup string_dec (map get_file_name (metadata (store w)))))).

(** The handler of the button that clears all data in [app.py]: the store
    is cleared and saved when it holds chunks. *)
Definition clear_all_data (env : Env) : M unit :=
  stats <- get_stats ;;
  if 0 <? total_chunks stats then clear ;;; save env else ret tt.

(** ** Hybrid retrieval *)

(** [needle in hay] on strings. *)
Fixpoint str_contains (needle hay : string) : bool :=
  prefix needle hay ||
  match hay with
  | EmptyString => false
  | String _ rest => str_contains needle rest
  end.

(** A record of [retrieve_hybrid]: the record of [search] with the
    [keyword_matches] key, absent until a keyword matches. *)
Record HybridResult := mkHybrid {
  h_result : Result;
  h_keyword_matches : option Z
}.

(** Python's [0.1]: the double nearest to one tenth. *)
Definition tenth : float := 0x1.999999999999ap-4%float.

Definition set_score (s : float) (r : Result) : Result :=
  mkResult (r_text r) (r_metadata r) s (r_distance r) (r_rank r) (r_rerank_score r).

Section Hybrid.

Variable env : Env.

(** [str.lower] *)
Variable lower : string -> string.

(** [sum(1 for kw in keywords if kw.lower() in text_lower)] *)
Definition keyword_matches (keywords : list string) (t : string) : Z :=
  Z.of_nat (length (filter (fun kw => str_contains (lower kw) (lower t)) keywords)).

(** One turn of the boosting loop. *)
Definition boost (keywords : list string) (r : Result) : HybridResult :=
  let n := keyword_matches keywords (r_text r) in
  if (0 <? n)%Z
  then mkHybrid (set_score (r_score r * (1 + tenth * float_of_Z n))%float r) (Some n)
  else mkHybrid r None.

(** [semantic_results.sort(key=lambda x: x['score'], reverse=True)] *)
Fixpoint insert_by_score (x : HybridResult) (l : list HybridResult)
    : list HybridResult :=
  match l with
  | [] => [x]
  | y :: l' =>
      if (r_score (h_result x) <? r_score (h_result y))%float
      then y :: insert_by_score x l'
      else x :: y :: l'
  end.

Definition sort_by_score (l : list HybridResult) : list HybridResult :=
  fold_right insert_by_score [] l.

(** [Retriever.retrieve_hybrid] *)
Definition retrieve_hybrid (query : string) (keywords : option (list string))
    (top_k : Z) : M (list HybridResult) :=
  semantic_results <- retrieve env query top_k ;;
  match keywords with
  | None | Some [] => ret (map (fun r => mkHybrid r None) semantic_results)
  | Some (kw :: kws) =>
      ret (py_prefix (sort_by_score (map (boost (kw :: kws)) semantic_results))
             top_k)
  end.

End Hybrid.

(** ** Helpers *)

(** [d.get(k)] *)
Fixpoint dict_get {V} (k : string) (d : list (string * V)) : option V :=
  match d with
  | [] => None
  | (k', v) :: d' => if String.eqb k' k then Some v else dict_get k d'
  end.




(** * Vocabulary of the properties *)

(** [index.ntotal], an absent index counting for none. *)
Definition index_count (s : Store) : nat :=
  match index s with
  | Some i => ntotal i
  | None => 0
  end.

(** The vectors held by the index, an absent index holding none. *)
Definition index_rows (s : Store) : list Vec :=
  match index s with
  | Some i => rows i
  | None => []
  end.

(** [|documents| == |metadata| == index.ntotal] *)
Definition aligned (s : Store) : Prop :=
  length (documents s) = length (metadata s) /\
  index_count s = length (documents s).

(** The store once [add_documents] has made sure an index exists. *)
Definition ensure_index (w : World) : World :=
  match index (store w) with
  | Some _ => w
  | None =>
      set_store (set_index (Some (mkIndex (dimension (store w)) [])) (store w)) w
  end.

(** A stored pair survives [delete_by_filename] when its record is not of
    the file, the file name being read as the code reads it. *)
Definition keeps (filename : string) (p : string * Chunk) : bool :=
  negb (String.eqb (get_file_name (snd p)) filename).

(** The stored (text, record) pairs that survive, in stored order. *)
Definition retained (filename : string) (s : Store) : list (string * Chunk) :=
  filter (keeps filename) (combine (documents s) (metadata s)).

(** How many stored records are of the file. *)
Definition matching (filename : string) (s : Store) : nat :=
  length (filter (fun m => String.eqb (get_file_name m) filename) (metadata s)).

(** The world in which the rebuild of the index starts: the two lists cut
    down to [ds] and [ms], the index new and empty. *)
Definition rebuild_start (ds : list string) (ms : list Chunk) (w : World) : World :=
  set_store
    (mkStore (Some (mkIndex (dimension (store w)) [])) ds ms
       (dimension (store w))) w.

(** The world in which the rebuild ends: the index holds [embs]. *)
Definition rebuild_end (embs : list Vec) (w : World) : World :=
  set_store (set_index (Some (mkIndex (dimension (store w)) embs)) (store w)) w.

(** [1 / (1 + distance)] as a number, where the division is defined. *)
Definition similarity (distance : float) : float := (1 / (1 + distance))%float.

(** The candidates with their position in the list the index hands back,
    counted from [i]. *)
Fixpoint enumerate_from (A : Type) (i : nat) (l : list A) : list (nat * A) :=
  match l with
  | [] => []
  | x :: rest => (i, x) :: enumerate_from (S i) rest
  end.

(** Whether the loop of [search] keeps a candidate. *)
Definition slot_kept (docs : list string) (threshold : float) (c : float * Z) : bool :=
  valid_slot docs (snd c) &&
  match similarity_of (fst c) with
  | Returned s => passes threshold s
  | Raised _ => false
  end.

(** The record [search] builds for the candidate found at a position. *)
Definition record_at (docs : list string) (metas : list Chunk)
    (p : nat * (float * Z)) : option Result :=
  match nth_error docs (Z.to_nat (snd (snd p))),
        nth_error metas (Z.to_nat (snd (snd p))) with
  | Some t, Some m =>
      Some (mkResult t m (similarity (fst (snd p))) (fst (snd p))
              (Z.of_nat (fst p) + 1) None)
  | _, _ => None
  end.

(** The ranks of a result list are dense: the i-th record has rank i. *)
Definition dense_ranks (rs : list Result) : Prop :=
  forall j r, nth_error rs j = Some r -> r_rank r = (Z.of_nat j + 1)%Z.

(** The score the reranker stores in a chunk when the calls made so far are
    [tr]: the number read off the model's answer, or the fallback when the
    call fails, when the first ten characters of the answer hold no digit,
    or when [int] refuses the digits. *)
Definition llm_score (env : Env) (tr : list Event) (query : string)
    (chunk : Result) : Num :=
  match generate_reply env tr (rerank_prompt query chunk) with
  | Returned response =>
      match score_of_response env response chunk with
      | Returned score => score
      | Raised _ => fallback_score chunk
      end
  | Raised _ => fallback_score chunk
  end.

(** The scored chunks the reranker builds from the candidates, one scoring
    call after the other, the first call being made after [tr]. *)
Fixpoint scored_from (env : Env) (tr : list Event) (query : string)
    (chunks : list Result) : list (Num * Result) :=
  match chunks with
  | [] => []
  | c :: rest =>
      (llm_score env tr query c, set_rerank_score (llm_score env tr query c) c)
      :: scored_from env (tr ++ [GenerateCall (rerank_prompt query c)]) query rest
  end.

(** No score is followed by a greater one. *)
Definition not_ascending (a b : Num * Result) : Prop :=
  num_ltb (fst a) (fst b) = false.

(** [l1] is [l2] with some elements left out, the order kept. *)
Inductive subseq (A : Type) : list A -> list A -> Prop :=
| subseq_nil : subseq [] []
| subseq_skip (x : A) (l1 l2 : list A) : subseq l1 l2 -> subseq l1 (x :: l2)
| subseq_keep (x : A) (l1 l2 : list A) : subseq l1 l2 -> subseq (x :: l1) (x :: l2).

(** The events that leave the process for the language model or write a
    file. *)
Definition quiet (ev : Event) : Prop :=
  match ev with
  | GenerateCall _ | WriteCall _ => False
  | _ => True
  end.

(** The provenance table as a process reads it from the files: empty when
    the file is missing or cannot be read. *)
Definition stored_table (dk : Disk) : list (string * DocInfo) :=
  match provenance_file dk with
  | Some (Intact t) => t
  | _ => []
  end.

(** No boosted score is followed by a greater one. *)
Definition score_not_ascending (a b : HybridResult) : Prop :=
  (r_score (h_result a) <? r_score (h_result b))%float = false.




(** * A reference index and sample collaborators

    The worked examples run the engine against an exact flat L2 index and
    simple collaborators.  Their vectors hold small integers and powers of
    two only, so every distance is the same in single and in double
    precision. *)

(** The squared Euclidean distance of [IndexFlatL2]. *)
Definition l2sqr (u v : Vec) : float :=
  fold_left (fun acc p => (acc + (fst p - snd p) * (fst p - snd p))%float)
    (combine u v) 0%float.

(** Nearest first; rows at the same distance keep the lower row first. *)
Fixpoint insert_asc (x : float * Z) (l : list (float * Z)) : list (float * Z) :=
  match l with
  | [] => [x]
  | y :: l' =>
      if (fst y <? fst x)%float then y :: insert_asc x l' else x :: y :: l'
  end.

(** The largest single-precision number, the distance of a missing result. *)
Definition FLT_MAX : float := 0x1.fffffep127%float.

(** [IndexFlatL2.search]: [k] must be positive and the query of the index's
    dimension; results that are missing carry the label -1. *)
Definition flat_l2_search (i : Index) (q : Vec) (k : Z)
    : Outcome (list (float * Z)) :=
  if (k <=? 0)%Z then Raised AssertionError
  else if negb (length q =? dim i) then Raised AssertionError
  else
    let found :=
      fold_right insert_asc []
        (map (fun p => (l2sqr q (snd p), Z.of_nat (fst p)))
           (enumerate_from 0 (rows i))) in
    Returned (firstn (Z.to_nat k) found
              ++ repeat (FLT_MAX, (-1)%Z) (Z.to_nat k - length found)).

(** The point at [x] on the first axis. *)
Definition axis (x : float) : Vec := x :: repeat 0%float (EMBEDDING_DIM - 1).

(** A provider that places a text on the first axis, at its length. *)
Definition length_provider (_ : list Event) (t : string) : Outcome Vec :=
  Returned (axis (PrimFloat.of_uint63 (Uint63.of_Z (Z.of_nat (String.length t))))).


(** A model that answers every other prompt, starting with the first. *)
Definition halting_model (tr : list Event) (_ : string) : Outcome string :=
  if Nat.even (length tr) then Returned "Score: 7"%string
  else Raised RequestException.

(** The character tables up to U+00FF: the ten ASCII digits are decimal
    digits; the superscripts two, three and one pass [str.isdigit] and are
    not decimal digits. *)
Definition latin1_isdigit (c : N) : bool :=
  ((48 <=? c) && (c <=? 57) || (c =? 178) || (c =? 179) || (c =? 185))%N.

Definition latin1_decimal (c : N) : option nat :=
  if ((48 <=? c) && (c <=? 57))%N then Some (N.to_nat c - 48) else None.

(** Everything works. *)
Definition steady_env : Env :=
  mkEnv length_provider halting_model flat_l2_search (fun _ _ => WriteDone)
    latin1_isdigit latin1_decimal.

(** The provider is down. *)
Definition provider_down_env : Env :=
  mkEnv (fun _ _ => Raised RequestException) halting_model flat_l2_search
    (fun _ _ => WriteDone) latin1_isdigit latin1_decimal.


Definition wrote (p : Path) (ev : Event) : bool :=
  match ev, p with
  | WriteCall IndexPath, IndexPath => true
  | WriteCall DocsPath, DocsPath => true
  | WriteCall MetaPath, MetaPath => true
  | WriteCall ProvenancePath, ProvenancePath => true
  | _, _ => false
  end.

(** A file system on which the texts can be written once only: the second
    write is refused. *)
Definition worn_disk_reply (tr : list Event) (p : Path) : WriteReply :=
  match p with
  | DocsPath => if existsb (wrote DocsPath) tr then WriteRefused else WriteDone
  | _ => WriteDone
  end.

Definition worn_disk_env : Env :=
  mkEnv length_provider halting_model flat_l2_search worn_disk_reply
    latin1_isdigit latin1_decimal.

(** A file system on which the write of the records fails half way. *)
Definition tearing_env : Env :=
  mkEnv length_provider halting_model flat_l2_search
    (fun _ p => match p with MetaPath => WriteTorn | _ => WriteDone end)
    latin1_isdigit latin1_decimal.

Definition chunk_of (t f : string) : Chunk :=
  mkChunk t (Some (mkContext (Some f) None)).

Definition sample_chunks : list Chunk :=
  [chunk_of "a" "a.txt"; chunk_of "bb" "b.txt"; chunk_of "ccc" "a.txt";
   chunk_of "dddd" "b.txt"; chunk_of "eeeee" "c.txt"].

(** A new process on a machine without files. *)
Definition fresh_world : World :=
  mkWorld (mkStore None [] [] EMBEDDING_DIM) [] (mkDisk None None None None) [].

(** The five sample chunks ingested. *)
Definition stocked_world : World :=
  snd (add_documents steady_env sample_chunks 32 fresh_world).

(** The five sample chunks ingested and saved. *)
Definition saved_world : World := snd (save steady_env stocked_world).

(** Two chunks ingested. *)
Definition small_world : World :=
  snd (add_documents steady_env (firstn 2 sample_chunks) 32 fresh_world).


(** A session on the worn file system: a chunk is ingested and saved, a
    second one is ingested and the save fails on the texts; the process is
    then started again and a query is made. *)
Definition worn_session (query : string) : M (list Result) :=
  add_documents worn_disk_env [chunk_of "a" "a.txt"] 32 ;;;
  save worn_disk_env ;;;
  add_documents worn_disk_env [chunk_of "bb" "b.txt"] 32 ;;;
  try_except (save worn_disk_env) (fun _ => ret tt) ;;;
  FAISSVectorStore_init ;;;
  search worn_disk_env query 5 0%float.

(** A snapshot whose records cannot be read. *)
Definition torn_records_disk : Disk :=
  mkDisk (Some (Intact (mkIndex EMBEDDING_DIM [axis 1%float])))
         (Some (Intact ["a"%string])) (Some Damaged) None.

(** The value a call returned, or [d] when it raised. *)
Definition returned_or {A} (d : A) (o : Outcome A) : A :=
  match o with
  | Returned a => a
  | Raised _ => d
  end.


(** The saved store with its two-file provenance table. *)
Definition tracked_world : World :=
  set_processed_docs
    [("h1"%string, mkDocInfo "a.txt" 2); ("h2"%string, mkDocInfo "b.txt" 2)]
    saved_world.

(** The index of the stocked store, and what it hands back for the query
    [bb] when three candidates are asked for. *)
Definition stocked_index : Index :=
  match index (store stocked_world) with
  | Some i => i
  | None => mkIndex 0 []
  end.


(** A new process on the snapshot whose records cannot be read. *)
Definition torn_start : World :=
  mkWorld (mkStore None [] [] EMBEDDING_DIM) [] torn_records_disk [].

(** A provider whose answers lack the [embedding] key. *)
Definition keyless_env : Env :=
  mkEnv (fun _ _ => Returned []) halting_model flat_l2_search
    (fun _ _ => WriteDone) latin1_isdigit latin1_decimal.

(** The saved store with its provenance table, in memory and in the file. *)
Definition listed_world : World :=
  set_disk
    (set_provenance_file (Some (Intact (processed_docs tracked_world)))
       (disk tracked_world))
    tracked_world.

(** A filter that keeps the chunks of [b.txt]. *)
Definition of_b_txt (m : Chunk) : Outcome bool :=
  Returned (String.eqb (get_file_name m) "b.txt").

(** A new process on files whose index cannot be read. *)
Definition damaged_index_start : World :=
  mkWorld (mkStore None [] [] EMBEDDING_DIM) []
    (mkDisk (Some Damaged) (Some (Intact ["a"%string])) None None) [].

(** A file system without room for the provenance file. *)
Definition full_disk_env : Env :=
  mkEnv length_provider halting_model flat_l2_search
    (fun _ p => match p with ProvenancePath => WriteRefused | _ => WriteDone end)
    latin1_isdigit latin1_decimal.

(** The store after the second chunk was added on the worn file system,
    the first one having been saved. *)
Definition worn_world : World :=
  snd ((add_documents worn_disk_env [chunk_of "a" "a.txt"] 32 ;;;
        save worn_disk_env ;;;
        add_documents worn_disk_env [chunk_of "bb" "b.txt"] 32) fresh_world).

(** * Properties *)

Section Properties.

Variable env : Env.

(** ** The provider calls *)

Lemma get_embeddings_batch_frame (texts : list string) (w w' : World)
    (o : Outcome (list Vec)) :
  get_embeddings_batch env texts w = (o, w') ->
  store w' = store w /\ processed_docs w' = processed_docs w /\
  disk w' = disk w /\
  exists done, trace w' = trace w ++ map EmbedCall done /\
               done = firstn (length done) texts.
Proof.
  revert w w' o.
  induction texts as [|t ts IH]; intros w w' o H; simpl in H.
  - inversion H; subst. repeat split; auto. exists []. simpl.
    now rewrite app_nil_r.
  - unfold bind, get_embedding in H.
    destruct (embed_reply env (trace w) t) as [v|e].
    + destruct (get_embeddings_batch env ts (log (EmbedCall t) w))
        as [[vs|e] w1] eqn:E; inversion H; subst;
        apply IH in E; destruct E as (Hs & Hp & Hd & done & Ht & Hdone);
        simpl in *; repeat split; auto;
        exists (t :: done); simpl; rewrite Ht, <- app_assoc; simpl;
        split; auto; f_equal; auto.
    + inversion H; subst. simpl. repeat split; auto.
      exists [t]. simpl. auto.
Qed.

Lemma get_embeddings_batch_returned (texts : list string) (w w' : World)
    (vs : list Vec) :
  get_embeddings_batch env texts w = (Returned vs, w') ->
  length vs = length texts /\ trace w' = trace w ++ map EmbedCall texts.
Proof.
  revert w w' vs.
  induction texts as [|t ts IH]; intros w w' vs H; simpl in H.
  - inversion H; subst. simpl. now rewrite app_nil_r.
  - unfold bind, get_embedding in H.
    destruct (embed_reply env (trace w) t) as [v|e]; [|discriminate].
    destruct (get_embeddings_batch env ts (log (EmbedCall t) w))
      as [[vs'|e] w1] eqn:E; inversion H; subst.
    apply IH in E. destruct E as [Hl Ht]. simpl in *.
    split; [now rewrite Hl|]. rewrite Ht, <- app_assoc. reflexivity.
Qed.

Lemma get_embeddings_batch_app (a b : list string) (w : World) :
  get_embeddings_batch env (a ++ b) w =
  (es1 <- get_embeddings_batch env a ;;
   es2 <- get_embeddings_batch env b ;;
   ret (es1 ++ es2)) w.
Proof.
  revert w. induction a as [|t ts IH]; intros w; simpl.
  - unfold bind, ret. simpl.
    destruct (get_embeddings_batch env b w) as [[vs|e] w1]; reflexivity.
  - unfold bind, get_embedding.
    destruct (embed_reply env (trace w) t) as [v|e]; [|reflexivity].
    rewrite IH. unfold bind, ret.
    destruct (get_embeddings_batch env ts (log (EmbedCall t) w))
      as [[vs|e] w1]; [|reflexivity].
    destruct (get_embeddings_batch env b w1) as [[vs'|e] w2]; reflexivity.
Qed.

(** The batches are embedded exactly as their concatenation would be. *)
Lemma embed_batches_concat (batches : list (list string)) (w : World) :
  embed_batches env batches w = get_embeddings_batch env (concat batches) w.
Proof.
  revert w. induction batches as [|b bs IH]; intros w; simpl; [reflexivity|].
  rewrite get_embeddings_batch_app. unfold bind, ret.
  destruct (get_embeddings_batch env b w) as [[vs|e] w1]; [|reflexivity].
  rewrite IH. reflexivity.
Qed.

(** ** Batching *)

Lemma slices_from (A : Type) (l : list A) (bs fuel start : nat) :
  0 < bs -> length l - start <= fuel ->
  concat (map (fun i => slice l i bs) (range_from fuel start (length l) bs))
  = skipn start l.
Proof.
  intros Hbs. revert start.
  induction fuel as [|fuel IH]; intros start Hfuel; simpl.
  - symmetry. apply skipn_all2. lia.
  - destruct (start <? length l) eqn:E.
    + apply Nat.ltb_lt in E. simpl. rewrite IH by lia.
      unfold slice. rewrite Nat.add_comm, <- skipn_skipn.
      apply firstn_skipn.
    + apply Nat.ltb_ge in E. simpl. symmetry. now apply skipn_all2.
Qed.

Lemma slices_cover (A : Type) (l : list A) (bs : nat) :
  0 < bs ->
  concat (map (fun i => slice l i bs) (range_from (length l) 0 (length l) bs))
  = l.
Proof.
  intros Hbs. rewrite slices_from by lia. reflexivity.
Qed.

(** ** Adding *)

Lemma ensure_index_frame (w : World) :
  documents (store (ensure_index w)) = documents (store w) /\
  metadata (store (ensure_index w)) = metadata (store w) /\
  index_rows (store (ensure_index w)) = index_rows (store w) /\
  dimension (store (ensure_index w)) = dimension (store w) /\
  processed_docs (ensure_index w) = processed_docs w /\
  disk (ensure_index w) = disk w /\ trace (ensure_index w) = trace w /\
  index (store (ensure_index w)) <> None.
Proof.
  unfold ensure_index, index_rows.
  destruct (index (store w)) eqn:E; simpl; rewrite ?E;
    repeat split; auto; discriminate.
Qed.

(** [add_documents] on a non-empty list with a positive batch size: the
    texts are embedded one by one in order, then the matrix is checked and
    appended, then the two lists are extended. *)
Lemma add_documents_unfold (c : Chunk) (cs : list Chunk) (bs : Z) (w : World) :
  (0 < bs)%Z ->
  add_documents env (c :: cs) bs w =
  match get_embeddings_batch env (map text (c :: cs)) (ensure_index w) with
  | (Raised e, w1) => (Raised e, w1)
  | (Returned embs, w1) =>
      match np_array embs with
      | Raised e => (Raised e, w1)
      | Returned arr =>
          match index (store w1) with
          | None => (Raised AssertionError, w1)
          | Some i =>
              match faiss_add i arr with
              | Raised e => (Raised e, w1)
              | Returned i' =>
                  (Returned (Z.of_nat (length (c :: cs))),
                   set_store
                     (mkStore (Some i')
                        (documents (store w1) ++ map text (c :: cs))
                        (metadata (store w1) ++ c :: cs)
                        (dimension (store w1))) w1)
              end
          end
      end
  end.
Proof.
  intros Hbs.
  unfold add_documents, bind at 1, gets.
  assert (Hens : (match index (store w) with
                  | Some _ => ret tt | None => create_index end) w
                 = (Returned tt, ensure_index w)).
  { unfold ensure_index, create_index, modify, ret.
    destruct (index (store w)); reflexivity. }
  unfold bind at 1. rewrite Hens.
  unfold py_range.
  destruct (bs =? 0)%Z eqn:E0; [apply Z.eqb_eq in E0; lia|].
  destruct (bs <? 0)%Z eqn:E1; [apply Z.ltb_lt in E1; lia|].
  unfold bind at 1, lift. unfold bind at 1.
  rewrite embed_batches_concat, slices_cover by lia.
  destruct (get_embeddings_batch env (map text (c :: cs)) (ensure_index w))
    as [[embs|e] w1]; [|reflexivity].
  unfold bind at 1. destruct (np_array embs) as [arr|e]; [|reflexivity].
  unfold bind at 1, index_add.
  destruct (index (store w1)) as [i|]; [|reflexivity].
  destruct (faiss_add i arr) as [i'|e]; [|reflexivity].
  unfold bind, modify, ret, set_store, set_metadata, set_documents, set_index.
  simpl. reflexivity.
Qed.

(** With a batch size that is not positive nothing is embedded and the
    call raises. *)
Lemma add_documents_bad_batch (c : Chunk) (cs : list Chunk) (bs : Z) (w : World) :
  (bs <= 0)%Z ->
  add_documents env (c :: cs) bs w = (Raised ValueError, ensure_index w).
Proof.
  intros Hbs.
  unfold add_documents, bind at 1, gets.
  assert (Hens : (match index (store w) with
                  | Some _ => ret tt | None => create_index end) w
                 = (Returned tt, ensure_index w)).
  { unfold ensure_index, create_index, modify, ret.
    destruct (index (store w)); reflexivity. }
  unfold bind at 1. rewrite Hens.
  unfold py_range.
  destruct (bs =? 0)%Z eqn:E0; [reflexivity|].
  destruct (bs <? 0)%Z eqn:E1;
    [|apply Z.eqb_neq in E0; apply Z.ltb_ge in E1; lia].
  unfold bind, lift, ret. simpl.
  unfold index_add.
  destruct (ensure_index_frame w) as (_ & _ & _ & _ & _ & _ & _ & Hi).
  destruct (index (store (ensure_index w))); [reflexivity|congruence].
Qed.

Lemma np_array_returned (embs arr : list Vec) :
  np_array embs = Returned arr -> arr = embs.
Proof.
  unfold np_array. destruct embs as [|v vs]; [congruence|].
  match goal with |- context [if ?b then _ else _] => destruct b end;
    congruence.
Qed.

Lemma faiss_add_returned (i i' : Index) (x : list Vec) :
  faiss_add i x = Returned i' ->
  dim i' = dim i /\ rows i' = rows i ++ x.
Proof.
  unfold faiss_add. destruct x as [|v vs]; [discriminate|].
  destruct (length v =? dim i); [|discriminate].
  intros H; inversion H; subst. simpl. auto.
Qed.

Lemma add_documents_returned (chunks : list Chunk) (bs : Z) (w w' : World) (n : Z) :
  add_documents env chunks bs w = (Returned n, w') ->
  n = Z.of_nat (length chunks) /\
  documents (store w') = documents (store w) ++ map text chunks /\
  metadata (store w') = metadata (store w) ++ chunks /\
  (exists embs, length embs = length chunks /\
                index_rows (store w') = index_rows (store w) ++ embs) /\
  processed_docs w' = processed_docs w /\ disk w' = disk w.
Proof.
  intros H. destruct chunks as [|c cs].
  - simpl in H. inversion H; subst. simpl. rewrite !app_nil_r.
    repeat split; auto. exists []. now rewrite app_nil_r.
  - destruct (Z.ltb_spec 0 bs) as [Hbs|Hbs];
      [|rewrite add_documents_bad_batch in H by lia; discriminate].
    rewrite add_documents_unfold in H by assumption.
    destruct (get_embeddings_batch env (map text (c :: cs)) (ensure_index w))
      as [[embs|e] w1] eqn:E; [|discriminate].
    destruct (get_embeddings_batch_frame _ _ E) as (Hs & Hp & Hd & _).
    destruct (get_embeddings_batch_returned _ _ E) as (Hl & _).
    destruct (ensure_index_frame w) as (Fd & Fm & Fr & _ & Fp & Fk & _ & _).
    destruct (np_array embs) as [arr|e] eqn:Ea; [|discriminate].
    apply np_array_returned in Ea. subst arr.
    destruct (index (store w1)) as [i|] eqn:Ei; [|discriminate].
    destruct (faiss_add i embs) as [i'|e] eqn:Ef; [|discriminate].
    apply faiss_add_returned in Ef. destruct Ef as [_ Hrows].
    inversion H; subst. simpl.
    rewrite Hs, Fd, Fm.
    repeat split; auto; try congruence.
    exists embs. split; [now rewrite Hl, length_map|].
    unfold index_rows at 1. simpl. rewrite Hrows.
    rewrite <- Fr. unfold index_rows. rewrite <- Hs, Ei. reflexivity.
Qed.

Lemma add_documents_raised (chunks : list Chunk) (bs : Z) (w w' : World) (e : Exn) :
  add_documents env chunks bs w = (Raised e, w') ->
  store w' = store (ensure_index w) /\
  processed_docs w' = processed_docs w /\ disk w' = disk w.
Proof.
  intros H. destruct chunks as [|c cs]; [discriminate|].
  destruct (ensure_index_frame w) as (_ & _ & _ & _ & Fp & Fk & _ & _).
  destruct (Z.ltb_spec 0 bs) as [Hbs|Hbs].
  - rewrite add_documents_unfold in H by assumption.
    destruct (get_embeddings_batch env (map text (c :: cs)) (ensure_index w))
      as [[embs|e1] w1] eqn:E;
      destruct (get_embeddings_batch_frame _ _ E) as (Hs & Hp & Hd & _).
    + destruct (np_array embs) as [arr|e2].
      * destruct (index (store w1)) as [i|].
        -- destruct (faiss_add i arr) as [i'|e3]; inversion H; subst;
             repeat split; congruence.
        -- inversion H; subst; repeat split; congruence.
      * inversion H; subst; repeat split; congruence.
    + inversion H; subst; repeat split; congruence.
  - rewrite add_documents_bad_batch in H by lia.
    inversion H; subst. repeat split; auto.
Qed.

(** A failure of the provider while the texts are embedded is the outcome
    of the whole call. *)
Lemma add_documents_provider_failure (c : Chunk) (cs : list Chunk) (bs : Z)
    (w w1 : World) (e : Exn) :
  (0 < bs)%Z ->
  get_embeddings_batch env (map text (c :: cs)) (ensure_index w) = (Raised e, w1) ->
  add_documents env (c :: cs) bs w = (Raised e, w1).
Proof.
  intros Hbs H. rewrite add_documents_unfold by assumption. now rewrite H.
Qed.

(** ** Deleting *)

Lemma keep_loop_lengths (filename : string) (docs : list string) (idx : nat)
    (metas : list Chunk) (ks : list nat) (ds : list string) (ms : list Chunk) :
  keep_loop filename docs idx metas = Returned (ks, ds, ms) ->
  length ds = length ms /\ length ms <= length metas.
Proof.
  revert idx ks ds ms.
  induction metas as [|m rest IH]; intros idx ks ds ms H; simpl in H.
  - inversion H; subst. simpl. auto.
  - destruct (String.eqb (get_file_name m) filename).
    + apply IH in H. simpl. lia.
    + destruct (nth_error docs idx) as [t|]; [|discriminate].
      destruct (keep_loop filename docs (S idx) rest) as [[[ks' ds'] ms']|e] eqn:E;
        [|discriminate].
      inversion H; subst. apply IH in E. simpl. lia.
Qed.

Lemma skipn_cons_nth (A : Type) (l : list A) (idx n : nat) :
  length (skipn idx l) = S n ->
  exists t, nth_error l idx = Some t /\ skipn idx l = t :: skipn (S idx) l.
Proof.
  revert l. induction idx as [|idx IH]; intros l H.
  - destruct l as [|a l]; [discriminate|]. exists a. auto.
  - destruct l as [|a l]; [discriminate|]. simpl in H.
    destruct (IH l H) as (t & Ht & Hs). exists t. auto.
Qed.

(** On lists of equal length the loop never raises and keeps exactly the
    pairs whose record is not of the file, in order. *)
Lemma keep_loop_aligned (filename : string) (docs : list string) (idx : nat)
    (metas : list Chunk) :
  length (skipn idx docs) = length metas ->
  exists ks,
    keep_loop filename docs idx metas =
    Returned (ks,
              map fst (filter (keeps filename) (combine (skipn idx docs) metas)),
              map snd (filter (keeps filename) (combine (skipn idx docs) metas))).
Proof.
  revert idx. induction metas as [|m rest IH]; intros idx H; simpl.
  - exists []. destruct (skipn idx docs); reflexivity.
  - destruct (skipn_cons_nth _ _ H) as (t & Ht & Hs).
    assert (Hlen : length (skipn (S idx) docs) = length rest).
    { rewrite Hs in H. cbn [length] in H. now injection H. }
    destruct (IH (S idx) Hlen) as (ks & Hk).
    rewrite Hs. cbn [combine filter].
    assert (Hkeep : keeps filename (t, m)
                    = negb (String.eqb (get_file_name m) filename))
      by reflexivity.
    rewrite Hkeep.
    destruct (String.eqb (get_file_name m) filename); cbn [negb map fst snd].
    + exists ks. exact Hk.
    + rewrite Ht, Hk. exists (idx :: ks). reflexivity.
Qed.

Lemma retained_count (filename : string) (docs : list string) (metas : list Chunk) :
  length docs = length metas ->
  length (filter (keeps filename) (combine docs metas))
  + length (filter (fun m => String.eqb (get_file_name m) filename) metas)
  = length metas.
Proof.
  revert docs. induction metas as [|m rest IH]; intros docs H.
  - destruct docs; reflexivity.
  - destruct docs as [|t docs]; [discriminate|]. injection H as H.
    cbn [combine filter].
    assert (Hkeep : keeps filename (t, m)
                    = negb (String.eqb (get_file_name m) filename))
      by reflexivity.
    rewrite Hkeep.
    destruct (String.eqb (get_file_name m) filename); cbn [negb length];
      specialize (IH docs H); lia.
Qed.

(** The shape of [delete_by_filename], the loop's outcome being given. *)
Lemma delete_by_filename_unfold (filename : string) (w : World) :
  delete_by_filename env filename w =
  match keep_loop filename (documents (store w)) 0 (metadata (store w)) with
  | Raised e => (Raised e, w)
  | Returned (ks, ds, ms) =>
      let removed :=
        (Z.of_nat (length (documents (store w))) - Z.of_nat (length ds))%Z in
      if (0 <? removed)%Z then
        match ds with
        | [] => (Returned removed, rebuild_start ds ms w)
        | _ :: _ =>
            match get_embeddings_batch env ds (rebuild_start ds ms w) with
            | (Raised e, w3) => (Raised e, w3)
            | (Returned embs, w3) =>
                match np_array embs with
                | Raised e => (Raised e, w3)
                | Returned arr =>
                    match faiss_add (mkIndex (dimension (store w)) []) arr with
                    | Raised e => (Raised e, w3)
                    | Returned _ => (Returned removed, rebuild_end arr w3)
                    end
                end
            end
        end
      else (Returned removed, w)
  end.
Proof.
  unfold delete_by_filename, bind at 1, gets. unfold bind at 1.
  unfold bind at 1, lift.
  destruct (keep_loop filename (documents (store w)) 0 (metadata (store w)))
    as [[[ks ds] ms]|e]; [|reflexivity].
  cbn [fst snd].
  destruct (0 <? Z.of_nat (length (documents (store w))) - Z.of_nat (length ds))%Z;
    [|reflexivity].
  destruct ds as [|t ds].
  - reflexivity.
  - unfold bind at 1. unfold bind at 1. unfold bind at 1. unfold bind at 1.
    unfold modify at 1 2, create_index, modify.
    change (set_store _ (set_store _ (set_store _ w)))
      with (rebuild_start (t :: ds) ms w).
    unfold bind at 1.
    destruct (get_embeddings_batch env (t :: ds) (rebuild_start (t :: ds) ms w))
      as [[embs|e] w3] eqn:E; [|reflexivity].
    destruct (get_embeddings_batch_frame _ _ E) as (Hs & _).
    unfold bind at 1. destruct (np_array embs) as [arr|e]; [|reflexivity].
    unfold index_add. rewrite Hs. cbn [rebuild_start set_store store index].
    destruct (faiss_add (mkIndex (dimension (store w)) []) arr) as [i'|e] eqn:Ef;
      [|reflexivity].
    unfold ret, rebuild_end. rewrite Hs. cbn [rebuild_start set_store store dimension].
    unfold faiss_add in Ef. destruct arr as [|v arr]; [discriminate|].
    cbn [dim rows] in Ef. destruct (length v =? dimension (store w)); [|discriminate].
    inversion Ef; subst. reflexivity.
Qed.


Lemma index_count_rows (s : Store) : index_count s = length (index_rows s).
Proof.
  unfold index_count, index_rows, ntotal. destruct (index s); reflexivity.
Qed.


(** ** Alignment *)


Lemma delete_by_filename_aligned (filename : string) (w w' : World) (r : Z) :
  aligned (store w) ->
  delete_by_filename env filename w = (Returned r, w') ->
  aligned (store w').
Proof.
  intros Hal H. rewrite delete_by_filename_unfold in H.
  destruct (keep_loop filename (documents (store w)) 0 (metadata (store w)))
    as [[[ks ds] ms]|e] eqn:Ek; [|discriminate].
  apply keep_loop_lengths in Ek. destruct Ek as [Hlen _].
  cbv zeta in H.
  destruct (0 <? Z.of_nat (length (documents (store w))) - Z.of_nat (length ds))%Z;
    [|inversion H; subst; exact Hal].
  destruct ds as [|t ds].
  - inversion H; subst. unfold aligned. simpl. simpl in Hlen. auto.
  - destruct (get_embeddings_batch env (t :: ds) (rebuild_start (t :: ds) ms w))
      as [[embs|e] w3] eqn:E; [|discriminate].
    destruct (get_embeddings_batch_frame _ _ E) as (Hs & _).
    destruct (get_embeddings_batch_returned _ _ E) as (Hl & _).
    destruct (np_array embs) as [arr|e] eqn:Ea; [|discriminate].
    apply np_array_returned in Ea. subst arr.
    destruct (faiss_add (mkIndex (dimension (store w)) []) embs); [|discriminate].
    inversion H; subst. unfold aligned, rebuild_end, index_count, ntotal.
    simpl. rewrite Hs. simpl. simpl in Hlen, Hl. auto.
Qed.



(** C2 (add: count and no partial append), as the code has it.  A call that
    returns has added exactly N texts, N records and N vectors and returns
    N.  A call that raises, whatever the reason, leaves the documents and
    the metadata as they were and adds no vector; the one change it may
    leave behind is that an absent index has been replaced by a new empty
    one.  A failure of the provider while the texts are embedded is what
    the caller gets. *)
Theorem add_documents_count_and_abort (chunks : list Chunk) (bs : Z) (w : World) :
  (forall n w',
     add_documents env chunks bs w = (Returned n, w') ->
     n = Z.of_nat (length chunks) /\
     length (documents (store w')) = length (documents (store w)) + length chunks /\
     length (metadata (store w')) = length (metadata (store w)) + length chunks /\
     index_count (store w') = index_count (store w) + length chunks /\
     documents (store w') = documents (store w) ++ map text chunks /\
     metadata (store w') = metadata (store w) ++ chunks) /\
  (forall e w',
     add_documents env chunks bs w = (Raised e, w') ->
     documents (store w') = documents (store w) /\
     metadata (store w') = metadata (store w) /\
     index_rows (store w') = index_rows (store w) /\
     index (store w') = index (store (ensure_index w)) /\
     disk w' = disk w) /\
  (forall e w1,
     (0 < bs)%Z -> chunks <> [] ->
     get_embeddings_batch env (map text chunks) (ensure_index w) = (Raised e, w1) ->
     add_documents env chunks bs w = (Raised e, w1)).
Proof.
  split; [|split].
  - intros n w' H.
    destruct (add_documents_returned _ _ _ H)
      as (Hn & Hd & Hm & (embs & Hl & Hr) & _).
    rewrite !index_count_rows, Hd, Hm, Hr, !length_app, length_map.
    repeat split; auto; lia.
  - intros e w' H.
    destruct (add_documents_raised _ _ _ H) as (Hs & _ & Hd).
    destruct (ensure_index_frame w) as (Fd & Fm & Fr & _).
    rewrite Hs. repeat split; auto.
  - intros e w1 Hbs Hne H. destruct chunks as [|c cs]; [congruence|].
    now apply add_documents_provider_failure.
Qed.

(** ** Searching *)

Lemma similarity_of_returned (d s : float) :
  similarity_of d = Returned s -> s = similarity d.
Proof.
  unfold similarity_of, similarity.
  destruct (1 + d =? 0)%float; congruence.
Qed.

(** The loop of [search] is a filter of the enumerated candidates followed
    by the construction of one record per candidate kept. *)
Lemma format_results_filter (docs : list string) (metas : list Chunk)
    (thr : float) (idx : nat) (cands : list (float * Z)) (rs : list Result) :
  format_results docs metas thr idx cands = Returned rs ->
  map Some rs =
  map (record_at docs metas)
      (filter (fun p => slot_kept docs thr (snd p)) (enumerate_from idx cands)).
Proof.
  revert idx rs. induction cands as [|[d i] rest IH]; intros idx rs H.
  - simpl in H. inversion H. reflexivity.
  - cbn [format_results] in H. cbn [enumerate_from filter snd].
    unfold slot_kept at 1. cbn [fst snd].
    destruct (valid_slot docs i); cbn [andb].
    + destruct (similarity_of d) as [s|e] eqn:Es; [|discriminate].
      apply similarity_of_returned in Es. subst s.
      destruct (passes thr (similarity d)).
      * destruct (nth_error docs (Z.to_nat i)) as [t|] eqn:Et; [|discriminate].
        destruct (nth_error metas (Z.to_nat i)) as [m|] eqn:Em; [|discriminate].
        destruct (format_results docs metas thr (S idx) rest) as [rs'|e] eqn:E;
          [|discriminate].
        inversion H; subst rs. cbn [map]. rewrite <- (IH _ _ E).
        unfold record_at. cbn [fst snd]. rewrite Et, Em. reflexivity.
      * now apply IH.
    + now apply IH.
Qed.



(** The position a kept element had before the filter: it is where the
    source list holds it, and the elements kept before it are exactly the
    ones that precede it in the result. *)
Lemma nth_filter_enumerate (A : Type) (f : A -> bool) (l : list A)
    (i0 j pos : nat) (x : A) :
  nth_error (filter (fun p => f (snd p)) (enumerate_from i0 l)) j = Some (pos, x) ->
  i0 <= pos /\ nth_error l (pos - i0) = Some x /\ f x = true /\
  j = length (filter f (firstn (pos - i0) l)).
Proof.
  revert i0 j. induction l as [|x0 rest IH]; intros i0 j H.
  - destruct j; discriminate.
  - cbn [enumerate_from filter snd] in H.
    destruct (f x0) eqn:Ef.
    + destruct j as [|j].
      * simpl in H. inversion H; subst. rewrite Nat.sub_diag. simpl. auto.
      * simpl in H. apply IH in H. destruct H as (Hle & Hn & Hf & Hj).
        replace (pos - i0) with (S (pos - S i0)) by lia.
        cbn [nth_error firstn filter]. rewrite Ef. simpl.
        repeat split; auto; lia.
    + apply IH in H. destruct H as (Hle & Hn & Hf & Hj).
      replace (pos - i0) with (S (pos - S i0)) by lia.
      cbn [nth_error firstn filter]. rewrite Ef.
      repeat split; auto; lia.
Qed.

(** The shape of [search] on a store that holds vectors. *)
Lemma search_unfold (query : string) (top_k : Z) (thr : float) (w : World)
    (i : Index) :
  index (store w) = Some i -> ntotal i <> 0 ->
  search env query top_k thr w =
  match embed_reply env (trace w) query with
  | Raised e => (Raised e, log (EmbedCall query) w)
  | Returned qv =>
      let w2 := log (SearchCall top_k) (log (EmbedCall query) w) in
      match index_search env i qv top_k with
      | Raised e => (Raised e, w2)
      | Returned cands =>
          (format_results (documents (store w)) (metadata (store w)) thr 0 cands,
           w2)
      end
  end.
Proof.
  intros Hi Hn. unfold search, bind at 1, gets. rewrite Hi.
  destruct (ntotal i =? 0) eqn:E; [apply Nat.eqb_eq in E; congruence|].
  unfold bind at 1, get_embedding.
  destruct (embed_reply env (trace w) query) as [qv|e]; [|reflexivity].
  unfold bind at 1.
  destruct (index_search env i qv top_k) as [cands|e]; reflexivity.
Qed.

Lemma search_on_empty (query : string) (top_k : Z) (thr : float) (w : World) :
  index_count (store w) = 0 ->
  search env query top_k thr w = (Returned [], w).
Proof.
  intros H. unfold search, bind, gets, ret. unfold index_count in H.
  destruct (index (store w)) as [i|]; [|reflexivity].
  rewrite H. reflexivity.
Qed.

(** C7 (empty store).  With no index, or with an index that holds no
    vector, [search] returns the empty list whatever the query, [top_k]
    and threshold are; it does not raise, and it leaves the whole world as
    it was, the trace of calls included: the provider is not invoked. *)
Theorem search_empty_store (query : string) (top_k : Z) (thr : float) (w : World) :
  index_count (store w) = 0 ->
  search env query top_k thr w = (Returned [], w) /\
  trace (snd (search env query top_k thr w)) = trace w.
Proof.
  intros H. rewrite (search_on_empty query top_k thr w H). auto.
Qed.



Lemma filter_firstn_mono (A : Type) (f : A -> bool) (l : list A) (a b : nat) :
  a <= b -> length (filter f (firstn a l)) <= length (filter f (firstn b l)).
Proof.
  intros Hab.
  assert (E : firstn b l = firstn a l ++ skipn a (firstn b l)).
  { rewrite <- (firstn_skipn a (firstn b l)) at 1.
    rewrite firstn_firstn, Nat.min_l by assumption. reflexivity. }
  rewrite E, filter_app, length_app. lia.
Qed.

Lemma filter_all_length (A : Type) (f : A -> bool) (l : list A) :
  forallb f l = true -> length (filter f l) = length l.
Proof.
  induction l as [|x rest IH]; simpl; [reflexivity|].
  destruct (f x); simpl; [intros H; now rewrite IH|discriminate].
Qed.

(** What [search] returned, read back on the candidates of the index. *)
Lemma search_returned (query : string) (top_k : Z) (thr : float)
    (w w' : World) (rs : list Result) :
  index_count (store w) <> 0 ->
  search env query top_k thr w = (Returned rs, w') ->
  exists i qv cands,
    index (store w) = Some i /\
    embed_reply env (trace w) query = Returned qv /\
    index_search env i qv top_k = Returned cands /\
    format_results (documents (store w)) (metadata (store w)) thr 0 cands
    = Returned rs /\
    w' = log (SearchCall top_k) (log (EmbedCall query) w).
Proof.
  intros Hn H. unfold index_count in Hn.
  destruct (index (store w)) as [i|] eqn:Hi; [|congruence].
  rewrite (search_unfold query top_k thr w Hi Hn) in H.
  destruct (embed_reply env (trace w) query) as [qv|e] eqn:Eq; [|discriminate].
  cbv zeta in H.
  destruct (index_search env i qv top_k) as [cands|e] eqn:Ec; [|discriminate].
  inversion H; subst. exists i, qv, cands. repeat split; auto.
Qed.

Lemma record_at_some (docs : list string) (metas : list Chunk)
    (p : nat * (float * Z)) (r : Result) :
  record_at docs metas p = Some r ->
  r_rank r = (Z.of_nat (fst p) + 1)%Z /\
  r_distance r = fst (snd p) /\
  r_score r = similarity (fst (snd p)) /\
  nth_error docs (Z.to_nat (snd (snd p))) = Some (r_text r) /\
  nth_error metas (Z.to_nat (snd (snd p))) = Some (r_metadata r) /\
  r_rerank_score r = None.
Proof.
  unfold record_at.
  destruct (nth_error docs (Z.to_nat (snd (snd p)))) as [t|]; [|discriminate].
  destruct (nth_error metas (Z.to_nat (snd (snd p)))) as [m|]; [|discriminate].
  intros H; inversion H; subst. simpl. repeat split.
Qed.




(** C6 (ranks), as the code assigns them.  Every record that [search]
    returns carries the text and the metadata of the stored chunk it points
    to, the similarity, the raw distance and a 1-based rank; the rank is
    the position of the candidate in the list handed back by the index,
    that is the position of the record in the returned list plus the
    number of candidates dropped before it.  So ranks are at least the
    position, strictly increasing along the list, and equal to the position
    exactly when no earlier candidate was dropped. *)
Theorem rank_is_candidate_position (query : string) (top_k : Z) (thr : float)
    (w w' : World) (rs : list Result) :
  search env query top_k thr w = (Returned rs, w') ->
  (forall j r,
     nth_error rs j = Some r ->
     exists i qv cands pos d idx,
       index (store w) = Some i /\
       embed_reply env (trace w) query = Returned qv /\
       index_search env i qv top_k = Returned cands /\
       nth_error cands pos = Some (d, idx) /\
       r_rank r = (Z.of_nat pos + 1)%Z /\
       r_distance r = d /\ r_score r = similarity d /\
       nth_error (documents (store w)) (Z.to_nat idx) = Some (r_text r) /\
       nth_error (metadata (store w)) (Z.to_nat idx) = Some (r_metadata r) /\
       r_rerank_score r = None /\
       j = length (filter (slot_kept (documents (store w)) thr) (firstn pos cands)) /\
       (Z.of_nat j + 1 <= r_rank r)%Z /\
       (forallb (slot_kept (documents (store w)) thr) (firstn pos cands) = true ->
        r_rank r = (Z.of_nat j + 1)%Z)) /\
  (forall j1 j2 r1 r2,
     j1 < j2 -> nth_error rs j1 = Some r1 -> nth_error rs j2 = Some r2 ->
     (r_rank r1 < r_rank r2)%Z).
Proof.
  intros H.
  destruct (Nat.eq_dec (index_count (store w)) 0) as [Hz|Hn].
  { pose proof (@search_on_empty query top_k thr w Hz) as E.
    rewrite E in H. inversion H; subst. split.
    - intros j r Hj. destruct j; discriminate.
    - intros j1 j2 r1 r2 _ Hj. destruct j1; discriminate. }
  destruct (@search_returned _ _ _ _ _ _ Hn H) as (i & qv & cands & Hi & Hq & Hc & Hf & _).
  pose proof (@format_results_filter _ _ _ _ _ _ Hf) as Hmap.
  set (docs := documents (store w)) in *.
  set (metas := metadata (store w)) in *.
  assert (Hpos : forall j r, nth_error rs j = Some r ->
            exists pos d idx,
              record_at docs metas (pos, (d, idx)) = Some r /\
              nth_error cands pos = Some (d, idx) /\
              j = length (filter (slot_kept docs thr) (firstn pos cands))).
  { intros j r Hj.
    assert (Hj' : nth_error (map Some rs) j = Some (Some r))
      by now apply map_nth_error.
    rewrite Hmap, nth_error_map in Hj'.
    destruct (nth_error
                (filter (fun p => slot_kept docs thr (snd p))
                   (enumerate_from 0 cands)) j)
      as [[pos [d idx]]|] eqn:Hp; [|discriminate].
    cbn [option_map] in Hj'. injection Hj' as Hrec.
    apply nth_filter_enumerate in Hp.
    destruct Hp as (_ & Hnth & _ & Hlen). rewrite Nat.sub_0_r in *.
    exists pos, d, idx. auto. }
  split.
  - intros j r Hj. destruct (Hpos j r Hj) as (pos & d & idx & Hrec & Hnth & Hlen).
    apply record_at_some in Hrec. cbn [fst snd] in Hrec.
    destruct Hrec as (Hrank & Hd & Hs & Ht & Hm & Hrr).
    assert (Hjle : j <= pos).
    { rewrite Hlen. etransitivity; [apply filter_length_le|].
      rewrite length_firstn. lia. }
    exists i, qv, cands, pos, d, idx. repeat split; auto; try lia.
    intros Hall. apply filter_all_length in Hall.
    rewrite Hall, length_firstn in Hlen.
    assert (pos < length cands) by (apply nth_error_Some; congruence).
    lia.
  - intros j1 j2 r1 r2 Hlt H1 H2.
    destruct (Hpos j1 r1 H1) as (p1 & d1 & i1 & Hr1 & _ & Hl1).
    destruct (Hpos j2 r2 H2) as (p2 & d2 & i2 & Hr2 & _ & Hl2).
    apply record_at_some in Hr1. apply record_at_some in Hr2.
    cbn [fst snd] in *. destruct Hr1 as (Hk1 & _). destruct Hr2 as (Hk2 & _).
    rewrite Hk1, Hk2.
    destruct (Nat.lt_ge_cases p1 p2) as [Hp|Hp]; [lia|].
    pose proof (@filter_firstn_mono _ (slot_kept docs thr) cands _ _ Hp). lia.
Qed.

(** ** Reranking *)

Lemma SFcompare_swap (x y : spec_float) :
  SFcompare y x = option_map CompOpp (SFcompare x y).
Proof.
  destruct x as [sx|sx| |sx mx ex], y as [sy|sy| |sy my ey]; simpl;
    try reflexivity;
    try (destruct sx; reflexivity); try (destruct sy; reflexivity);
    try (destruct sx, sy; reflexivity).
  destruct sx, sy; try reflexivity;
    rewrite (Z.compare_antisym ex ey);
    destruct (ex ?= ey)%Z; simpl; try reflexivity;
    change (Pos.compare_cont Eq my mx) with (Pos.compare my mx);
    change (Pos.compare_cont Eq mx my) with (Pos.compare mx my);
    rewrite (Pos.compare_antisym mx my); destruct (mx ?= my)%positive;
    reflexivity.
Qed.

Lemma float_ltb_asym (x y : float) :
  (x <? y)%float = true -> (y <? x)%float = false.
Proof.
  rewrite !FloatAxioms.ltb_spec. unfold SFltb.
  rewrite (SFcompare_swap (Prim2SF x) (Prim2SF y)).
  destruct (SFcompare (Prim2SF x) (Prim2SF y)) as [[| |]|]; simpl; congruence.
Qed.

Lemma num_ltb_asym (a b : Num) : num_ltb a b = true -> num_ltb b a = false.
Proof.
  destruct a as [x|f], b as [y|g]; simpl;
    try apply float_ltb_asym.
  intros H. apply Z.ltb_lt in H. apply Z.ltb_ge. lia.
Qed.

Lemma insert_desc_perm (x : Num * Result) (l : list (Num * Result)) :
  Permutation (insert_desc x l) (x :: l).
Proof.
  induction l as [|y rest IH]; simpl; [reflexivity|].
  destruct (num_ltb (fst x) (fst y)); [|reflexivity].
  rewrite IH. apply perm_swap.
Qed.

Lemma sort_desc_perm (l : list (Num * Result)) : Permutation (sort_desc l) l.
Proof.
  induction l as [|x rest IH]; simpl; [reflexivity|].
  rewrite insert_desc_perm. now constructor.
Qed.

Lemma insert_desc_sorted (x : Num * Result) (l : list (Num * Result)) :
  Sorted not_ascending l -> Sorted not_ascending (insert_desc x l).
Proof.
  induction l as [|y rest IH]; intros Hs; simpl.
  - repeat constructor.
  - destruct (num_ltb (fst x) (fst y)) eqn:E.
    + inversion Hs as [|? ? Hrest Hhd]; subst.
      constructor; [now apply IH|].
      destruct rest as [|z rest']; simpl.
      * constructor. unfold not_ascending. now apply num_ltb_asym.
      * destruct (num_ltb (fst x) (fst z)).
        -- inversion Hhd; subst. now constructor.
        -- constructor. unfold not_ascending. now apply num_ltb_asym.
    + constructor; [assumption|]. constructor. exact E.
Qed.

Lemma sort_desc_sorted (l : list (Num * Result)) :
  Sorted not_ascending (sort_desc l).
Proof.
  induction l as [|x rest IH]; simpl; [constructor|].
  now apply insert_desc_sorted.
Qed.

Lemma firstn_sorted (A : Type) (R : A -> A -> Prop) (n : nat) (l : list A) :
  Sorted R l -> Sorted R (firstn n l).
Proof.
  revert n. induction l as [|x rest IH]; intros n Hs.
  - rewrite firstn_nil. constructor.
  - destruct n as [|n]; [constructor|]. simpl.
    inversion Hs as [|? ? Hrest Hhd]; subst.
    constructor; [now apply IH|].
    destruct rest as [|y rest']; [rewrite firstn_nil; constructor|].
    destruct n; simpl; [constructor|].
    inversion Hhd; subst. now constructor.
Qed.

Lemma scored_from_length (tr : list Event) (query : string) (chunks : list Result) :
  length (scored_from env tr query chunks) = length chunks.
Proof.
  revert tr. induction chunks as [|c rest IH]; intros tr; simpl; auto.
Qed.

Lemma scored_from_stored (tr : list Event) (query : string) (chunks : list Result) :
  Forall (fun p => r_rerank_score (snd p) = Some (fst p))
         (scored_from env tr query chunks).
Proof.
  revert tr. induction chunks as [|c rest IH]; intros tr; simpl; constructor;
    auto.
Qed.

(** The j-th scored chunk is the j-th candidate with the score the model
    gave when asked after the first j scoring calls. *)
Lemma scored_from_nth (tr : list Event) (query : string) (chunks : list Result)
    (j : nat) (c : Result) :
  nth_error chunks j = Some c ->
  let tr_j := tr ++ map (fun x => GenerateCall (rerank_prompt query x))
                        (firstn j chunks) in
  nth_error (scored_from env tr query chunks) j
  = Some (llm_score env tr_j query c,
          set_rerank_score (llm_score env tr_j query c) c).
Proof.
  revert tr j. induction chunks as [|c0 rest IH]; intros tr j H.
  - destruct j; discriminate.
  - destruct j as [|j]; simpl in H.
    + inversion H; subst. simpl. now rewrite app_nil_r.
    + cbn zeta. simpl. rewrite (IH _ _ H). cbn zeta.
      now rewrite <- app_assoc.
Qed.

(** The scoring loop never raises: it makes one call per candidate, in
    order, and touches nothing else. *)
Lemma rerank_loop_run (query : string) (chunks : list Result) (w : World) :
  rerank_loop env query chunks w =
  (Returned (scored_from env (trace w) query chunks),
   mkWorld (store w) (processed_docs w) (disk w)
     (trace w ++ map (fun c => GenerateCall (rerank_prompt query c)) chunks)).
Proof.
  revert w. induction chunks as [|c rest IH]; intros w.
  - simpl. unfold ret. rewrite app_nil_r. destruct w; reflexivity.
  - cbn [rerank_loop scored_from].
    unfold bind at 1, try_except, bind at 1, generate, lift, llm_score.
    destruct (generate_reply env (trace w) (rerank_prompt query c)) as [resp|e];
      [destruct (score_of_response env resp c) as [score|e]|];
      unfold ret at 1; unfold bind at 1; rewrite IH; unfold ret;
      cbn [log store processed_docs disk trace map]; rewrite <- app_assoc;
      reflexivity.
Qed.

Lemma format_results_unscored (docs : list string) (metas : list Chunk)
    (thr : float) (idx : nat) (cands : list (float * Z)) (rs : list Result) :
  format_results docs metas thr idx cands = Returned rs ->
  Forall (fun r => r_rerank_score r = None) rs.
Proof.
  revert idx rs. induction cands as [|[d i] rest IH]; intros idx rs H.
  - simpl in H. inversion H. constructor.
  - cbn [format_results] in H.
    destruct (valid_slot docs i); [|now apply IH in H].
    destruct (similarity_of d) as [s|e]; [|discriminate].
    destruct (passes thr s); [|now apply IH in H].
    destruct (nth_error docs (Z.to_nat i)); [|discriminate].
    destruct (nth_error metas (Z.to_nat i)); [|discriminate].
    destruct (format_results docs metas thr (S idx) rest) as [rs'|e] eqn:E;
      [|discriminate].
    inversion H; subst. constructor; [reflexivity|]. now apply IH in E.
Qed.

(** [search] touches neither the store nor the files, and the calls it
    makes are one embedding request and one index search at most. *)
Lemma search_frame (query : string) (top_k : Z) (thr : float) (w w' : World)
    (o : Outcome (list Result)) :
  search env query top_k thr w = (o, w') ->
  store w' = store w /\ processed_docs w' = processed_docs w /\
  disk w' = disk w /\
  (trace w' = trace w \/ trace w' = trace w ++ [EmbedCall query] \/
   trace w' = trace w ++ [EmbedCall query; SearchCall top_k]) /\
  (forall rs, o = Returned rs -> Forall (fun r => r_rerank_score r = None) rs).
Proof.
  intros H.
  destruct (index (store w)) as [i|] eqn:Hi.
  - destruct (Nat.eq_dec (ntotal i) 0) as [Hz|Hn].
    + assert (Hc : index_count (store w) = 0)
        by (unfold index_count; now rewrite Hi).
      pose proof (@search_on_empty query top_k thr w Hc) as E.
      rewrite E in H. inversion H; subst. repeat split; auto.
      intros rs Hrs. inversion Hrs. constructor.
    + rewrite (search_unfold query top_k thr w Hi Hn) in H.
      destruct (embed_reply env (trace w) query) as [qv|e].
      * cbv zeta in H.
        destruct (index_search env i qv top_k) as [cands|e].
        -- inversion H; subst. simpl. rewrite <- app_assoc. simpl.
           repeat split; auto.
           intros rs Hrs. eapply format_results_unscored; eauto.
        -- inversion H; subst. simpl. rewrite <- app_assoc. simpl.
           repeat split; auto. intros rs Hrs; discriminate.
      * inversion H; subst. simpl. repeat split; auto.
        intros rs Hrs; discriminate.
  - assert (Hc : index_count (store w) = 0)
      by (unfold index_count; now rewrite Hi).
    pose proof (@search_on_empty query top_k thr w Hc) as E.
    rewrite E in H. inversion H; subst. repeat split; auto.
    intros rs Hrs. inversion Hrs. constructor.
Qed.

(** When more candidates come back than are wanted, every one is scored
    and the first [rerank_top_k] of the sorted list are returned. *)
Lemma retrieve_with_rerank_scored (query : string) (top_k rerank_top_k : Z)
    (w w1 : World) (initial : list Result) :
  retrieve env query top_k w = (Returned initial, w1) ->
  (rerank_top_k < Z.of_nat (length initial))%Z ->
  retrieve_with_rerank env query top_k rerank_top_k w =
  (Returned
     (py_prefix (map snd (sort_desc (scored_from env (trace w1) query initial)))
        rerank_top_k),
   mkWorld (store w1) (processed_docs w1) (disk w1)
     (trace w1 ++ map (fun c => GenerateCall (rerank_prompt query c)) initial)).
Proof.
  intros H Hlt. unfold retrieve_with_rerank, bind at 1. rewrite H.
  destruct (Z.of_nat (length initial) <=? rerank_top_k)%Z eqn:E;
    [apply Z.leb_le in E; lia|].
  unfold _rerank_with_llm, bind. rewrite rerank_loop_run. reflexivity.
Qed.

(** C10 (rerank short circuit).  When the initial retrieval returns no more
    candidates than [rerank_top_k], [retrieve_with_rerank] returns exactly
    those candidates, in the order [search] gave them, in the world [search]
    left: no scoring call is made and no candidate carries a rerank
    score. *)
Theorem rerank_short_circuit (query : string) (top_k rerank_top_k : Z)
    (w w1 : World) (initial : list Result) :
  retrieve env query top_k w = (Returned initial, w1) ->
  (Z.of_nat (length initial) <= rerank_top_k)%Z ->
  retrieve_with_rerank env query top_k rerank_top_k w = (Returned initial, w1) /\
  Forall (fun r => r_rerank_score r = None) initial /\
  exists calls,
    trace w1 = trace w ++ calls /\
    forall prompt, ~ In (GenerateCall prompt) calls.
Proof.
  intros H Hle. split; [|split].
  - unfold retrieve_with_rerank, bind. rewrite H.
    apply Z.leb_le in Hle. rewrite Hle. reflexivity.
  - unfold retrieve in H.
    destruct (search_frame _ _ _ _ H) as (_ & _ & _ & _ & Hu). now apply Hu.
  - unfold retrieve in H.
    destruct (search_frame _ _ _ _ H) as (_ & _ & _ & [Ht|[Ht|Ht]] & _).
    + exists []. rewrite app_nil_r. split; [exact Ht|]. intros p [].
    + exists [EmbedCall query]. split; [exact Ht|].
      intros p [Hp|[]]. discriminate.
    + exists [EmbedCall query; SearchCall top_k]. split; [exact Ht|].
      intros p [Hp|[Hp|[]]]; discriminate.
Qed.

(** C8 (rerank fan-out), as the code has it.  [RAGPipeline.query] with
    reranking asks the engine's search for twice its [top_k].  When more
    than [RERANK_TOP_K] candidates come back, one scoring call is made per
    candidate, in order.  Each candidate gets ten times its similarity
    when the call fails, when none of the first ten characters of the
    answer passes [str.isdigit], or when one that passes is not a decimal
    digit, so that [int] refuses the string; otherwise it gets the integer
    that the digits among these ten characters spell.  The candidates are
    sorted by descending score and the first [RERANK_TOP_K] are
    returned. *)
Theorem rerank_fan_out (question : string) (top_k : Z) (w w1 : World)
    (initial : list Result) :
  search env question (top_k * 2) SIMILARITY_THRESHOLD w = (Returned initial, w1) ->
  (RERANK_TOP_K < Z.of_nat (length initial))%Z ->
  let scored := scored_from env (trace w1) question initial in
  let calls := map (fun c => GenerateCall (rerank_prompt question c)) initial in
  query_context env question top_k true w =
    (Returned (map snd (firstn 3 (sort_desc scored))),
     mkWorld (store w1) (processed_docs w1) (disk w1) (trace w1 ++ calls)) /\
  trace w1 = trace w ++ [EmbedCall question; SearchCall (top_k * 2)] /\
  length calls = length initial /\
  (forall j c,
     nth_error initial j = Some c ->
     let tr_j := trace w1 ++ firstn j calls in
     nth_error scored j
     = Some (llm_score env tr_j question c,
             set_rerank_score (llm_score env tr_j question c) c)) /\
  Permutation (sort_desc scored) scored /\
  Sorted not_ascending (firstn 3 (sort_desc scored)) /\
  Forall (fun p => r_rerank_score (snd p) = Some (fst p)) (sort_desc scored) /\
  length (firstn 3 (sort_desc scored)) = 3 /\
  (forall tr c,
     match generate_reply env tr (rerank_prompt question c) with
     | Raised _ => llm_score env tr question c = fallback_score c
     | Returned response =>
         let digits :=
           filter (isdigit env) (map code_point (firstn 10 (chars response))) in
         (digits = [] -> llm_score env tr question c = fallback_score c) /\
         (forall z, py_int env digits = Returned z ->
                    llm_score env tr question c = PyInt z) /\
         (digits <> [] -> forall e, py_int env digits = Raised e ->
                    llm_score env tr question c = fallback_score c)
     end).
Proof.
  intros H Hlt scored calls.
  assert (Hlen : 3 < length initial) by (unfold RERANK_TOP_K in Hlt; lia).
  split; [|split; [|split; [|split; [|split; [|split; [|split; [|split]]]]]]].
  - unfold query_context.
    rewrite (@retrieve_with_rerank_scored question (top_k * 2) RERANK_TOP_K
               w w1 initial H Hlt).
    unfold py_prefix, RERANK_TOP_K. cbn [Z.ltb Z.compare Z.to_nat Pos.to_nat].
    rewrite firstn_map. reflexivity.
  - destruct (Nat.eq_dec (index_count (store w)) 0) as [Hz|Hn].
    + pose proof (@search_on_empty question (top_k * 2) SIMILARITY_THRESHOLD w Hz)
        as E.
      rewrite E in H. inversion H; subst. simpl in Hlen. lia.
    + destruct (@search_returned _ _ _ _ _ _ Hn H) as (_ & _ & _ & _ & _ & _ & _ & Hw).
      subst w1. simpl. rewrite <- app_assoc. reflexivity.
  - unfold calls. apply length_map.
  - intros j c Hj tr_j. unfold tr_j, calls. rewrite firstn_map.
    apply (@scored_from_nth (trace w1) question initial j c Hj).
  - apply sort_desc_perm.
  - apply firstn_sorted. apply sort_desc_sorted.
  - eapply Permutation_Forall; [symmetry; apply sort_desc_perm|].
    apply scored_from_stored.
  - rewrite length_firstn.
    rewrite (Permutation_length (sort_desc_perm scored)).
    unfold scored. rewrite scored_from_length. lia.
  - intros tr c. unfold llm_score, score_of_response.
    destruct (generate_reply env tr (rerank_prompt question c)) as [response|e];
      [|reflexivity].
    cbv zeta.
    destruct (filter (isdigit env)
                (map code_point (firstn 10 (chars response)))) as [|d ds].
    + split; [reflexivity|]. split; [discriminate|congruence].
    + split; [discriminate|].
      split; [intros z Hz|intros _ e He]; [rewrite Hz|rewrite He]; reflexivity.
Qed.

(** ** Persistence *)

Lemma delete_by_filename_frame (filename : string) (w w' : World)
    (o : Outcome Z) :
  delete_by_filename env filename w = (o, w') ->
  disk w' = disk w /\ processed_docs w' = processed_docs w.
Proof.
  rewrite delete_by_filename_unfold.
  destruct (keep_loop filename (documents (store w)) 0 (metadata (store w)))
    as [[[ks ds] ms]|e]; [|intros H; inversion H; auto].
  cbv zeta.
  destruct (0 <? Z.of_nat (length (documents (store w))) - Z.of_nat (length ds))%Z;
    [|intros H; inversion H; auto].
  destruct ds as [|t ds]; [intros H; inversion H; auto|].
  destruct (get_embeddings_batch env (t :: ds) (rebuild_start (t :: ds) ms w))
    as [[embs|e] w3] eqn:E;
    destruct (@get_embeddings_batch_frame _ _ _ _ E) as (_ & Hp & Hd & _);
    [|intros H; inversion H; subst; auto].
  destruct (np_array embs) as [arr|e]; [|intros H; inversion H; subst; auto].
  destruct (faiss_add (mkIndex (dimension (store w)) []) arr);
    intros H; inversion H; subst; auto.
Qed.

(** A delete that removed something has built a new index. *)
Lemma delete_by_filename_index (filename : string) (w w' : World) (n : Z) :
  delete_by_filename env filename w = (Returned n, w') ->
  (0 < n)%Z ->
  exists i, index (store w') = Some i.
Proof.
  rewrite delete_by_filename_unfold.
  destruct (keep_loop filename (documents (store w)) 0 (metadata (store w)))
    as [[[ks ds] ms]|e]; [|discriminate].
  cbv zeta.
  destruct (0 <? Z.of_nat (length (documents (store w))) - Z.of_nat (length ds))%Z
    eqn:Hpos.
  - destruct ds as [|t ds].
    + intros H _. inversion H; subst. eexists. reflexivity.
    + destruct (get_embeddings_batch env (t :: ds) (rebuild_start (t :: ds) ms w))
        as [[embs|e] w3]; [|discriminate].
      destruct (np_array embs) as [arr|e]; [|discriminate].
      destruct (faiss_add (mkIndex (dimension (store w)) []) arr); [|discriminate].
      intros H _. inversion H; subst. eexists. reflexivity.
  - intros H Hn. inversion H; subst. apply Z.ltb_ge in Hpos. lia.
Qed.

(** A save that returns has written the three artifacts, whole. *)
Lemma save_returned (w w' : World) (i : Index) :
  index (store w) = Some i ->
  save env w = (Returned tt, w') ->
  store w' = store w /\ processed_docs w' = processed_docs w /\
  disk w' = mkDisk (Some (Intact i)) (Some (Intact (documents (store w))))
              (Some (Intact (metadata (store w)))) (provenance_file (disk w)) /\
  trace w' = trace w ++ [WriteCall IndexPath; WriteCall DocsPath; WriteCall MetaPath].
Proof.
  intros Hi. unfold save, bind at 1, gets. rewrite Hi.
  unfold try_except, bind, gets, write_file, raise.
  destruct (write_reply env (trace w) IndexPath); try discriminate.
  cbn [log set_disk store processed_docs disk trace].
  destruct (write_reply env (trace w ++ [WriteCall IndexPath]) DocsPath);
    try discriminate.
  cbn [log set_disk store processed_docs disk trace].
  destruct (write_reply env ((trace w ++ [WriteCall IndexPath]) ++ [WriteCall DocsPath])
              MetaPath); try discriminate.
  intros H. inversion H; subst.
  cbn [log set_disk store processed_docs disk trace set_index_file set_docs_file
       set_meta_file index_file docs_file meta_file provenance_file].
  rewrite <- !app_assoc. repeat split; reflexivity.
Qed.

(** A write that fails makes [save] raise, whichever artifact it is. *)
Lemma save_failure_surfaced (w : World) (i : Index) :
  index (store w) = Some i ->
  write_reply env (trace w) IndexPath <> WriteDone \/
  write_reply env (trace w ++ [WriteCall IndexPath]) DocsPath <> WriteDone \/
  write_reply env (trace w ++ [WriteCall IndexPath; WriteCall DocsPath]) MetaPath
    <> WriteDone ->
  fst (save env w) = Raised OSError.
Proof.
  intros Hi Hfail. unfold save, bind at 1, gets. rewrite Hi.
  unfold try_except, bind, gets, write_file, raise.
  destruct (write_reply env (trace w) IndexPath) eqn:E1; try reflexivity.
  cbn [log set_disk store processed_docs disk trace].
  destruct (write_reply env (trace w ++ [WriteCall IndexPath]) DocsPath) eqn:E2;
    try reflexivity.
  cbn [log set_disk store processed_docs disk trace].
  rewrite <- app_assoc. cbn [app].
  destruct (write_reply env (trace w ++ [WriteCall IndexPath; WriteCall DocsPath])
              MetaPath) eqn:E3; try reflexivity.
  destruct Hfail as [H|[H|H]]; congruence.
Qed.

(** Loading three readable artifacts installs them in the store. *)
Lemma load_intact (w : World) (i : Index) (docs : list string)
    (metas : list Chunk) :
  index_file (disk w) = Some (Intact i) ->
  docs_file (disk w) = Some (Intact docs) ->
  meta_file (disk w) = Some (Intact metas) ->
  load w = (Returned tt, set_store (mkStore (Some i) docs metas (dimension (store w))) w).
Proof.
  intros Hi Hd Hm. unfold load, bind at 1, gets. rewrite Hi.
  unfold try_except, bind, read_file, modify. rewrite Hi.
  cbn [set_store set_index set_documents set_metadata store disk processed_docs
       trace index documents metadata dimension].
  rewrite Hd.
  cbn [set_store set_index set_documents set_metadata store disk processed_docs
       trace index documents metadata dimension].
  rewrite Hm. reflexivity.
Qed.

(** What the pipeline's delete is made of: the update of the provenance
    table, the engine's delete, and a save when something was removed. *)
Lemma delete_document_returned (filename : string) (w w' : World) (n : Z) :
  delete_document env filename w = (Returned n, w') ->
  exists w0 w1,
    store w0 = store w /\
    delete_by_filename env filename w0 = (Returned n, w1) /\
    if (0 <? n)%Z then save env w1 = (Returned tt, w') else w' = w1.
Proof.
  unfold delete_document, bind at 1, gets. unfold bind at 1.
  match goal with
  | |- context [match ?m w with _ => _ end] =>
      destruct (m w) as [[[]|e] w0] eqn:E0; [|discriminate]
  end.
  assert (Hs : store w0 = store w).
  { destruct (find (fun kv => (doc_file_name (snd kv) =? filename)%string)
                (processed_docs w)) as [[h d]|].
    - destruct (h =? EmptyString)%string; [inversion E0; reflexivity|].
      cbv beta delta [bind modify gets save_metadata try_except load_metadata
                      write_file raise] in E0.
      cbn [set_processed_docs store processed_docs disk trace] in E0.
      match type of E0 with
      | context [write_reply ?e ?t ?p] => destruct (write_reply e t p)
      end; inversion E0; reflexivity.
    - inversion E0; reflexivity. }
  unfold bind at 1.
  destruct (delete_by_filename env filename w0) as [[r|e] w1] eqn:E1;
    [|discriminate].
  unfold bind at 1. intros H. exists w0, w1.
  destruct (0 <? r)%Z eqn:Hr.
  - destruct (save env w1) as [[[]|e] w2] eqn:E2; [|discriminate].
    inversion H; subst. rewrite Hr. auto.
  - inversion H; subst. rewrite Hr. auto.
Qed.

(** C4 (delete persistence), as the code has it.  The engine's
    [delete_by_filename] writes nothing; it is the pipeline's
    [delete_document] that calls [save] once the engine's delete has
    returned with at least one chunk removed.  Whenever [delete_document]
    returns with [n > 0] chunks removed, the three artifacts on disk hold
    the index, the texts and the records of the store as the delete left
    them, and a process started on these files loads exactly that state. *)
Theorem delete_document_persists (filename : string) (w w' : World) (n : Z) :
  delete_document env filename w = (Returned n, w') ->
  (0 < n)%Z ->
  exists w0 w1 i,
    store w0 = store w /\
    delete_by_filename env filename w0 = (Returned n, w1) /\
    disk w1 = disk w0 /\
    save env w1 = (Returned tt, w') /\
    store w' = store w1 /\
    index (store w') = Some i /\
    index_file (disk w') = Some (Intact i) /\
    docs_file (disk w') = Some (Intact (documents (store w'))) /\
    meta_file (disk w') = Some (Intact (metadata (store w'))) /\
    forall reader : World,
      disk reader = disk w' ->
      exists reader',
        FAISSVectorStore_init reader = (Returned tt, reader') /\
        index (store reader') = index (store w') /\
        documents (store reader') = documents (store w') /\
        metadata (store reader') = metadata (store w').
Proof.
  intros H Hn.
  destruct (delete_document_returned _ _ H) as (w0 & w1 & Hs & Hdel & Hsave).
  assert (Hpos : (0 <? n)%Z = true) by now apply Z.ltb_lt.
  rewrite Hpos in Hsave.
  destruct (delete_by_filename_index _ _ Hdel Hn) as [i Hi].
  destruct (delete_by_filename_frame _ _ Hdel) as [Hdisk _].
  destruct (save_returned _ Hi Hsave) as (Hst & _ & Hdk & _).
  exists w0, w1, i. rewrite Hst, Hdk. cbn [index_file docs_file meta_file].
  repeat split; auto.
  intros reader Hr.
  eexists. unfold FAISSVectorStore_init, bind, modify. split.
  - apply load_intact; cbn [set_store disk]; rewrite Hr; reflexivity.
  - cbn [set_store store index documents metadata]. auto.
Qed.

(** C9 (load failure fallback).  When the index and the texts are read and
    the records cannot be, [load] returns with a new empty index, the texts
    it has just read and the records the store held before: the handler
    makes a new index and resets neither list. *)
Theorem load_failure_keeps_loaded_texts (w : World) (i : Index)
    (docs : list string) :
  index_file (disk w) = Some (Intact i) ->
  docs_file (disk w) = Some (Intact docs) ->
  meta_file (disk w) = None \/ meta_file (disk w) = Some Damaged ->
  load w =
  (Returned tt,
   set_store (mkStore (Some (mkIndex (dimension (store w)) [])) docs
                (metadata (store w)) (dimension (store w))) w).
Proof.
  intros Hi Hd Hm. unfold load, bind at 1, gets. rewrite Hi.
  unfold try_except, bind, read_file, modify. rewrite Hi.
  cbn [set_store set_index set_documents set_metadata store disk processed_docs
       trace index documents metadata dimension].
  rewrite Hd.
  cbn [set_store set_index set_documents set_metadata store disk processed_docs
       trace index documents metadata dimension].
  destruct Hm as [Hm|Hm]; rewrite Hm; reflexivity.
Qed.

(** * Further properties of the code *)

(** ** The provider *)

(** [get_embeddings_batch] makes one request per text, in order, and stops
    at the first request that fails: on success the j-th vector is the
    answer to the j-th request; on failure the exception is the one of the
    first failing request and no later request has been made. *)
Theorem get_embeddings_batch_calls (texts : list string) (w : World) :
  (forall vs w',
     get_embeddings_batch env texts w = (Returned vs, w') ->
     length vs = length texts /\
     trace w' = trace w ++ map EmbedCall texts /\
     forall j t,
       nth_error texts j = Some t ->
       exists v,
         nth_error vs j = Some v /\
         embed_reply env (trace w ++ map EmbedCall (firstn j texts)) t
         = Returned v) /\
  (forall e w',
     get_embeddings_batch env texts w = (Raised e, w') ->
     exists j t,
       nth_error texts j = Some t /\
       embed_reply env (trace w ++ map EmbedCall (firstn j texts)) t = Raised e /\
       trace w' = trace w ++ map EmbedCall (firstn (S j) texts)).
Proof.
  revert w. induction texts as [|t ts IH]; intros w.
  - split.
    + intros vs w' H. inversion H; subst. cbn [map length].
      rewrite app_nil_r. repeat split. intros j u Hj. destruct j; discriminate.
    + intros e w' H. discriminate H.
  - assert (U : get_embeddings_batch env (t :: ts) w =
                match embed_reply env (trace w) t with
                | Raised e => (Raised e, log (EmbedCall t) w)
                | Returned v =>
                    match get_embeddings_batch env ts (log (EmbedCall t) w) with
                    | (Returned vs, w1) => (Returned (v :: vs), w1)
                    | (Raised e, w1) => (Raised e, w1)
                    end
                end).
    { cbn [get_embeddings_batch]. unfold bind, get_embedding, ret.
      destruct (embed_reply env (trace w) t); [|reflexivity].
      destruct (get_embeddings_batch env ts (log (EmbedCall t) w)) as [[?|?] ?];
        reflexivity. }
    rewrite U. clear U.
    destruct (embed_reply env (trace w) t) as [v|e0] eqn:Ev.
    + destruct (IH (log (EmbedCall t) w)) as [IHr IHf].
      destruct (get_embeddings_batch env ts (log (EmbedCall t) w))
        as [[vs1|e1] w1] eqn:E.
      * split; [|intros e w' H; discriminate H].
        intros vs w' H. inversion H; subst.
        destruct (IHr vs1 w' eq_refl) as (Hl & Ht & Hn).
        cbn [log trace] in Ht, Hn. split; [cbn [length]; now rewrite Hl|].
        split; [rewrite Ht, <- app_assoc; reflexivity|].
        intros [|j] u Hj.
        -- cbn in Hj. inversion Hj; subst. exists v.
           cbn [firstn map nth_error]. rewrite app_nil_r. auto.
        -- cbn [nth_error] in Hj. destruct (Hn j u Hj) as (v' & Hv' & Hq).
           exists v'. split; [exact Hv'|].
           cbn [firstn map]. rewrite <- app_assoc in Hq. exact Hq.
      * split; [intros vs w' H; discriminate H|].
        intros e w' H. inversion H; subst.
        destruct (IHf e w' eq_refl) as (j & u & Hj & Hq & Ht).
        cbn [log trace] in Hq, Ht. exists (S j), u.
        split; [exact Hj|]. rewrite <- app_assoc in Hq, Ht.
        split; [exact Hq|exact Ht].
    + split; [intros vs w' H; discriminate H|].
      intros e w' H. inversion H; subst. exists 0, t.
      cbn [nth_error firstn map log trace]. rewrite app_nil_r. auto.
Qed.

(** ** Adding *)

(** The batch size of [add_documents] changes nothing as long as it is
    positive: the same requests are made and the same result is reached.
    With a batch size of zero or below the call raises [ValueError] on a
    non-empty list, after making sure an index exists and before any
    request.  An empty list returns 0 and touches nothing. *)
Theorem add_documents_batch_size (chunks : list Chunk) (bs1 bs2 : Z) (w : World) :
  ((0 < bs1)%Z -> (0 < bs2)%Z ->
   add_documents env chunks bs1 w = add_documents env chunks bs2 w) /\
  ((bs1 <= 0)%Z -> chunks <> [] ->
   add_documents env chunks bs1 w = (Raised ValueError, ensure_index w) /\
   trace (ensure_index w) = trace w /\
   documents (store (ensure_index w)) = documents (store w) /\
   metadata (store (ensure_index w)) = metadata (store w)) /\
  add_documents env [] bs1 w = (Returned 0%Z, w).
Proof.
  split; [|split].
  - intros H1 H2. destruct chunks as [|c cs]; [reflexivity|].
    rewrite !add_documents_unfold by assumption. reflexivity.
  - intros Hb Hne. destruct chunks as [|c cs]; [congruence|].
    rewrite add_documents_bad_batch by assumption.
    destruct (ensure_index_frame w) as (Hd & Hm & _ & _ & _ & _ & Ht & _).
    auto.
  - reflexivity.
Qed.

(** ** Saving and loading *)

(** What a save that returns has written is what a new store loads: the
    same index, texts and records. *)
Theorem save_load_round_trip (w w' : World) (i : Index) :
  index (store w) = Some i ->
  save env w = (Returned tt, w') ->
  store w' = store w /\
  forall reader : World,
    disk reader = disk w' ->
    exists reader',
      FAISSVectorStore_init reader = (Returned tt, reader') /\
      index (store reader') = Some i /\
      documents (store reader') = documents (store w) /\
      metadata (store reader') = metadata (store w) /\
      disk reader' = disk reader.
Proof.
  intros Hi Hs. destruct (save_returned _ Hi Hs) as (Hst & _ & Hdk & _).
  split; [exact Hst|]. intros reader Hr.
  eexists. unfold FAISSVectorStore_init, bind, modify. split.
  - apply load_intact; cbn [set_store disk]; rewrite Hr, Hdk; reflexivity.
  - cbn [set_store store index documents metadata disk]. auto.
Qed.

Lemma load_frame (w w' : World) (o : Outcome unit) :
  load w = (o, w') ->
  o = Returned tt /\ disk w' = disk w /\ trace w' = trace w /\
  processed_docs w' = processed_docs w /\
  dimension (store w') = dimension (store w) /\
  (index_file (disk w) = None -> w' = w) /\
  (index_file (disk w) <> None -> index (store w') <> None).
Proof.
  unfold load, bind at 1, gets.
  destruct (index_file (disk w)) as [fi|] eqn:Hi.
  - unfold try_except, bind, read_file, modify, create_index. rewrite Hi.
    destruct fi as [i|];
      cbn [set_store set_index set_documents set_metadata store disk
           processed_docs trace index documents metadata dimension].
    + destruct (docs_file (disk w)) as [[docs|]|];
        cbn [set_store set_index set_documents set_metadata store disk
             processed_docs trace index documents metadata dimension].
      * destruct (meta_file (disk w)) as [[metas|]|];
          intros H; inversion H; subst;
          cbn [set_store set_index set_documents set_metadata store disk
               processed_docs trace index documents metadata dimension];
          repeat split; auto; try discriminate; intros; discriminate.
      * intros H; inversion H; subst;
          cbn [set_store set_index set_documents set_metadata store disk
               processed_docs trace index documents metadata dimension];
          repeat split; auto; try discriminate; intros; discriminate.
      * intros H; inversion H; subst;
          cbn [set_store set_index set_documents set_metadata store disk
               processed_docs trace index documents metadata dimension];
          repeat split; auto; try discriminate; intros; discriminate.
    + intros H; inversion H; subst;
        cbn [set_store set_index set_documents set_metadata store disk
             processed_docs trace index documents metadata dimension];
        repeat split; auto; try discriminate; intros; discriminate.
  - intros H; inversion H; subst. repeat split; auto; congruence.
Qed.

(** Creating a store never raises and never writes, whatever the files
    hold: without an index file the store is empty and has no index; with
    one, readable or not, the store has an index. *)
Theorem FAISSVectorStore_init_never_raises (w : World) :
  exists w',
    FAISSVectorStore_init w = (Returned tt, w') /\
    disk w' = disk w /\ trace w' = trace w /\
    processed_docs w' = processed_docs w /\
    dimension (store w') = EMBEDDING_DIM /\
    (index_file (disk w) = None -> store w' = mkStore None [] [] EMBEDDING_DIM) /\
    (index_file (disk w) <> None -> index (store w') <> None).
Proof.
  unfold FAISSVectorStore_init, bind, modify.
  destruct (load (set_store (mkStore None [] [] EMBEDDING_DIM) w))
    as [o w'] eqn:E.
  destruct (@load_frame _ _ _ E) as (Ho & Hd & Ht & Hp & Hdim & Hnone & Hsome).
  subst o. exists w'. cbn [set_store disk trace processed_docs store dimension] in *.
  repeat split; auto.
  intros Hn. rewrite (Hnone Hn). reflexivity.
Qed.

(** When the index file is there and the index or the texts cannot be
    read, the new store is empty and aligned: a new empty index, no text,
    no record. *)
Theorem init_with_unreadable_index_or_texts (w : World) :
  index_file (disk w) = Some Damaged \/
  (exists i, index_file (disk w) = Some (Intact i) /\
             (docs_file (disk w) = None \/ docs_file (disk w) = Some Damaged)) ->
  FAISSVectorStore_init w
  = (Returned tt,
     set_store (mkStore (Some (mkIndex EMBEDDING_DIM [])) [] [] EMBEDDING_DIM) w) /\
  aligned (mkStore (Some (mkIndex EMBEDDING_DIM [])) [] [] EMBEDDING_DIM).
Proof.
  intros H. split; [|split; reflexivity].
  unfold FAISSVectorStore_init, bind at 1, modify.
  unfold load, bind at 1, gets. cbn [set_store disk].
  destruct H as [Hi|(i & Hi & Hd)]; rewrite Hi.
  - unfold try_except, bind, read_file. cbn [set_store disk]. rewrite Hi.
    reflexivity.
  - unfold try_except, bind, read_file, modify.
    cbn [set_store set_index store disk processed_docs trace]. rewrite Hi.
    cbn [set_store set_index store disk processed_docs trace].
    destruct Hd as [Hd|Hd]; rewrite Hd; reflexivity.
Qed.

(** ** Deleting *)

Lemma delete_by_filename_on_parallel (filename : string) (w : World) :
  length (documents (store w)) = length (metadata (store w)) ->
  delete_by_filename env filename w =
  if (0 <? Z.of_nat (matching filename (store w)))%Z then
    match map fst (retained filename (store w)) with
    | [] =>
        (Returned (Z.of_nat (matching filename (store w))),
         rebuild_start (map fst (retained filename (store w)))
           (map snd (retained filename (store w))) w)
    | _ :: _ =>
        match get_embeddings_batch env (map fst (retained filename (store w)))
                (rebuild_start (map fst (retained filename (store w)))
                   (map snd (retained filename (store w))) w) with
        | (Raised e, w3) => (Raised e, w3)
        | (Returned embs, w3) =>
            match np_array embs with
            | Raised e => (Raised e, w3)
            | Returned arr =>
                match faiss_add (mkIndex (dimension (store w)) []) arr with
                | Raised e => (Raised e, w3)
                | Returned _ =>
                    (Returned (Z.of_nat (matching filename (store w))),
                     rebuild_end arr w3)
                end
            end
        end
    end
  else (Returned (Z.of_nat (matching filename (store w))), w).
Proof.
  intros Hlen.
  destruct (@keep_loop_aligned filename (documents (store w)) 0
              (metadata (store w)) Hlen) as (ks & Hloop).
  cbn [skipn] in Hloop. fold (retained filename (store w)) in Hloop.
  assert (Hcount : length (retained filename (store w))
                   + matching filename (store w)
                   = length (documents (store w))).
  { unfold retained, matching. rewrite Hlen. now apply retained_count. }
  rewrite delete_by_filename_unfold, Hloop. cbv zeta.
  replace (Z.of_nat (length (documents (store w)))
           - Z.of_nat (length (map fst (retained filename (store w)))))%Z
    with (Z.of_nat (matching filename (store w)))
    by (rewrite length_map; lia).
  reflexivity.
Qed.

Lemma retained_no_match (filename : string) (s : Store) :
  Forall (fun m => get_file_name m <> filename) (map snd (retained filename s)).
Proof.
  apply Forall_forall. intros m Hm. apply in_map_iff in Hm.
  destruct Hm as ([t m'] & Hs & Hin). cbn [snd] in Hs. subst m'.
  apply filter_In in Hin. destruct Hin as [_ Hk]. unfold keeps in Hk.
  cbn [snd] in Hk. intros Heq. apply String.eqb_eq in Heq.
  rewrite Heq in Hk. discriminate.
Qed.

Lemma matching_zero (filename : string) (s : Store) :
  Forall (fun m => get_file_name m <> filename) (metadata s) ->
  matching filename s = 0.
Proof.
  unfold matching. induction 1 as [|m ms Hm _ IH]; [reflexivity|].
  cbn [filter]. apply String.eqb_neq in Hm. rewrite Hm. exact IH.
Qed.

Lemma matching_zero_inv (filename : string) (s : Store) :
  matching filename s = 0 ->
  Forall (fun m => get_file_name m <> filename) (metadata s).
Proof.
  unfold matching. induction (metadata s) as [|m ms IH]; [constructor|].
  cbn [filter]. destruct (get_file_name m =? filename)%string eqn:E;
    [discriminate|].
  intros H. constructor; [now apply String.eqb_neq|auto].
Qed.

(** What a completed delete leaves: parallel lists without any record of
    the file. *)
Lemma delete_by_filename_leaves (filename : string) (w w1 : World) (n : Z) :
  length (documents (store w)) = length (metadata (store w)) ->
  delete_by_filename env filename w = (Returned n, w1) ->
  length (documents (store w1)) = length (metadata (store w1)) /\
  Forall (fun m => get_file_name m <> filename) (metadata (store w1)).
Proof.
  intros Hlen H. rewrite (delete_by_filename_on_parallel filename w Hlen) in H.
  pose proof (retained_no_match filename (store w)) as Hno.
  destruct (0 <? Z.of_nat (matching filename (store w)))%Z eqn:EM.
  - destruct (map fst (retained filename (store w))) as [|t ds] eqn:Ek.
    + inversion H; subst. cbn [rebuild_start set_store store documents metadata].
      split; [|exact Hno].
      apply (f_equal (@length _)) in Ek. rewrite length_map in *.
      cbn [length] in *. auto.
    + destruct (get_embeddings_batch env (t :: ds)
                  (rebuild_start (t :: ds)
                     (map snd (retained filename (store w))) w))
        as [[embs|e] w3] eqn:E; [|discriminate H].
      destruct (@get_embeddings_batch_frame _ _ _ _ E) as (Hs & _).
      destruct (np_array embs) as [arr|e]; [|discriminate H].
      destruct (faiss_add (mkIndex (dimension (store w)) []) arr);
        [|discriminate H].
      inversion H; subst.
      cbn [rebuild_end set_store set_index store documents metadata].
      rewrite Hs. cbn [rebuild_start set_store store documents metadata].
      split; [|exact Hno]. rewrite <- Ek, !length_map. reflexivity.
  - inversion H; subst. split; [exact Hlen|].
    apply matching_zero_inv. apply Z.ltb_ge in EM. lia.
Qed.

Lemma format_results_from_store (docs : list string) (metas : list Chunk)
    (thr : float) (idx : nat) (cands : list (float * Z)) (rs : list Result) :
  format_results docs metas thr idx cands = Returned rs ->
  Forall (fun r => In (r_text r) docs /\ In (r_metadata r) metas) rs.
Proof.
  revert idx rs. induction cands as [|[d i] rest IH]; intros idx rs H.
  - simpl in H. inversion H. constructor.
  - cbn [format_results] in H.
    destruct (valid_slot docs i); [|now apply IH in H].
    destruct (similarity_of d) as [sim|e]; [|discriminate H].
    destruct (passes thr sim); [|now apply IH in H].
    destruct (nth_error docs (Z.to_nat i)) as [t|] eqn:Et; [|discriminate H].
    destruct (nth_error metas (Z.to_nat i)) as [m|] eqn:Em; [|discriminate H].
    destruct (format_results docs metas thr (S idx) rest) as [rs'|e] eqn:E;
      [|discriminate H].
    inversion H; subst. constructor; [|now apply IH in E].
    cbn [r_text r_metadata]. split; eapply nth_error_In; eauto.
Qed.

(** Every record [search] returns holds a text and a record of the store. *)
Lemma search_from_store (query : string) (top_k : Z) (thr : float)
    (w w' : World) (rs : list Result) :
  search env query top_k thr w = (Returned rs, w') ->
  Forall (fun r => In (r_text r) (documents (store w)) /\
                   In (r_metadata r) (metadata (store w))) rs.
Proof.
  intros H.
  destruct (Nat.eq_dec (index_count (store w)) 0) as [Hz|Hn].
  - rewrite (search_on_empty query top_k thr w Hz) in H. inversion H. constructor.
  - destruct (@search_returned _ _ _ _ _ _ Hn H)
      as (i & qv & cands & _ & _ & _ & Hf & _).
    eapply format_results_from_store; eauto.
Qed.

(** After a delete that returns, no record of the file is left in the
    store, and no search made on that store returns a chunk of the file,
    whatever the query, [top_k] and threshold. *)
Theorem delete_then_search (filename : string) (w w1 : World) (n : Z) :
  length (documents (store w)) = length (metadata (store w)) ->
  delete_by_filename env filename w = (Returned n, w1) ->
  Forall (fun m => get_file_name m <> filename) (metadata (store w1)) /\
  forall query top_k thr rs w2,
    search env query top_k thr w1 = (Returned rs, w2) ->
    Forall (fun r => get_file_name (r_metadata r) <> filename) rs.
Proof.
  intros Hlen H.
  destruct (@delete_by_filename_leaves _ _ _ _ Hlen H) as [_ Hno].
  split; [exact Hno|]. intros query top_k thr rs w2 Hs.
  apply search_from_store in Hs. rewrite Forall_forall in *.
  intros r Hr. apply Hno. now apply (Hs r Hr).
Qed.

(** Deleting the same file again returns 0 and changes nothing: no request
    is made and the index is not rebuilt. *)
Theorem delete_by_filename_twice (filename : string) (w w1 : World) (n : Z) :
  length (documents (store w)) = length (metadata (store w)) ->
  delete_by_filename env filename w = (Returned n, w1) ->
  delete_by_filename env filename w1 = (Returned 0%Z, w1).
Proof.
  intros Hlen H.
  destruct (@delete_by_filename_leaves _ _ _ _ Hlen H) as [Hlen1 Hno].
  rewrite (delete_by_filename_on_parallel filename w1 Hlen1).
  rewrite (@matching_zero filename (store w1) Hno). reflexivity.
Qed.

(** A delete is not undone when the provider fails while the kept texts
    are embedded again: the call raises the provider's failure, and the
    store is left with the kept texts and records and an index that holds
    no vector at all. *)
Theorem delete_by_filename_provider_failure (filename : string) (w w3 : World)
    (e : Exn) :
  length (documents (store w)) = length (metadata (store w)) ->
  0 < matching filename (store w) ->
  get_embeddings_batch env (map fst (retained filename (store w)))
    (rebuild_start (map fst (retained filename (store w)))
       (map snd (retained filename (store w))) w) = (Raised e, w3) ->
  delete_by_filename env filename w = (Raised e, w3) /\
  documents (store w3) = map fst (retained filename (store w)) /\
  metadata (store w3) = map snd (retained filename (store w)) /\
  index (store w3) = Some (mkIndex (dimension (store w)) []) /\
  documents (store w3) <> [] /\
  disk w3 = disk w.
Proof.
  intros Hlen HM E.
  destruct (@get_embeddings_batch_frame _ _ _ _ E) as (Hs & _ & Hd & _).
  rewrite (delete_by_filename_on_parallel filename w Hlen).
  assert (HM' : (0 <? Z.of_nat (matching filename (store w)))%Z = true)
    by (apply Z.ltb_lt; lia).
  rewrite HM'.
  destruct (map fst (retained filename (store w))) as [|t ds] eqn:Ek.
  - cbn [get_embeddings_batch] in E. discriminate E.
  - rewrite E, Hs, Hd.
    cbn [rebuild_start set_store store documents metadata index disk].
    repeat split. discriminate.
Qed.

(** ** Searching *)

Lemma subseq_firstn (A : Type) (n : nat) (l : list A) : subseq (firstn n l) l.
Proof.
  revert n. induction l as [|x l IH]; intros [|n]; cbn [firstn].
  - constructor.
  - constructor.
  - apply subseq_skip. apply (IH 0).
  - apply subseq_keep. apply IH.
Qed.

Lemma subseq_trans (A : Type) (l1 l2 l3 : list A) :
  subseq l1 l2 -> subseq l2 l3 -> subseq l1 l3.
Proof.
  intros H12 H23. revert l1 H12.
  induction H23 as [|x l2 l3 _ IH|x l2 l3 _ IH]; intros l1 H12.
  - exact H12.
  - apply subseq_skip. auto.
  - inversion H12; subst; [apply subseq_skip|apply subseq_keep]; auto.
Qed.

Lemma subseq_In (A : Type) (l1 l2 : list A) (x : A) :
  subseq l1 l2 -> In x l1 -> In x l2.
Proof.
  induction 1 as [|y l1 l2 _ IH|y l1 l2 _ IH]; intros Hin.
  - exact Hin.
  - right. auto.
  - destruct Hin as [Hx|Hin]; [left; exact Hx|right; auto].
Qed.

Lemma subseq_filter (A : Type) (p : A -> bool) (l : list A) :
  subseq (filter p l) l.
Proof.
  induction l as [|x l IH]; cbn [filter]; [constructor|].
  destruct (p x); [apply subseq_keep|apply subseq_skip]; assumption.
Qed.

Lemma py_prefix_firstn (A : Type) (l : list A) (k : Z) :
  exists m, py_prefix l k = firstn m l /\ ((0 <= k)%Z -> m = Z.to_nat k).
Proof.
  unfold py_prefix. destruct (k <? 0)%Z eqn:E.
  - eexists. split; [reflexivity|]. apply Z.ltb_lt in E. lia.
  - eexists. split; reflexivity.
Qed.

Lemma filter_loop_returned (filter_fn : Chunk -> Outcome bool)
    (rs l : list Result) :
  filter_loop filter_fn rs = Returned l ->
  l = filter (fun r => match filter_fn (r_metadata r) with
                       | Returned b => b
                       | Raised _ => false
                       end) rs.
Proof.
  revert l. induction rs as [|r rest IH]; intros l H.
  - inversion H. reflexivity.
  - cbn [filter_loop] in H. cbn [filter].
    destruct (filter_fn (r_metadata r)) as [b|e] eqn:Eb; [|discriminate H].
    destruct (filter_loop filter_fn rest) as [l'|e]; [|discriminate H].
    rewrite <- (IH l' eq_refl). inversion H; subst. reflexivity.
Qed.

(** [search_with_filter] asks [search] for three times [top_k] candidates
    with the default threshold and hands back records of that answer, in
    the same order, that all pass the filter.  For a [top_k] that is not
    negative there are at most [top_k] of them, and when there are fewer
    no record of the answer that passes the filter was left out. *)
Theorem search_with_filter_result (query : string)
    (filter_fn : Chunk -> Outcome bool) (top_k : Z) (w w' : World)
    (out : list Result) :
  search_with_filter env query filter_fn top_k w = (Returned out, w') ->
  exists rs,
    search env query (top_k * 3) SIMILARITY_THRESHOLD w = (Returned rs, w') /\
    subseq out rs /\
    Forall (fun r => filter_fn (r_metadata r) = Returned true) out /\
    ((0 <= top_k)%Z ->
     length out <= Z.to_nat top_k /\
     (length out < Z.to_nat top_k ->
      forall r, In r rs -> filter_fn (r_metadata r) = Returned true -> In r out)).
Proof.
  unfold search_with_filter, bind at 1.
  destruct (search env query (top_k * 3) SIMILARITY_THRESHOLD w)
    as [[rs|e] w1] eqn:Es; [|intros H; discriminate H].
  unfold bind, lift, ret.
  destruct (filter_loop filter_fn rs) as [l|e] eqn:El; [|intros H; discriminate H].
  intros H. inversion H; subst out w'. clear H.
  pose proof (filter_loop_returned _ _ El) as Hl.
  destruct (py_prefix_firstn l top_k) as (m & Hm & Hk). rewrite Hm.
  assert (Hsub : subseq (firstn m l) l) by apply subseq_firstn.
  exists rs. split; [reflexivity|]. split; [|split].
  - eapply subseq_trans; [exact Hsub|]. rewrite Hl. apply subseq_filter.
  - apply Forall_forall. intros r Hr.
    apply (@subseq_In _ _ _ r Hsub) in Hr. rewrite Hl in Hr. apply filter_In in Hr.
    destruct Hr as [_ Hr].
    destruct (filter_fn (r_metadata r)) as [[|]|]; congruence.
  - intros Hpos. rewrite (Hk Hpos) in *. split.
    + rewrite length_firstn. lia.
    + intros Hlt r Hr Hpass. rewrite length_firstn in Hlt.
      rewrite firstn_all2 by lia. rewrite Hl. apply filter_In.
      split; [exact Hr|]. rewrite Hpass. reflexivity.
Qed.

(** No retrieval call changes the store, the provenance table or the
    files, whether it returns or raises; the calls it makes are one
    embedding request and one index search at most, never a call to the
    language model and never a write.  On a store without vectors
    [search_with_filter] returns the empty list and makes no call. *)
Theorem retrieval_is_read_only (query : string) (top_k : Z) (thr : float)
    (filter_fn : Chunk -> Outcome bool) (w : World) :
  let unchanged (w' : World) :=
    store w' = store w /\ processed_docs w' = processed_docs w /\
    disk w' = disk w /\
    exists calls, trace w' = trace w ++ calls /\ Forall quiet calls /\
                  length calls <= 2 in
  unchanged (snd (search env query top_k thr w)) /\
  unchanged (snd (retrieve env query top_k w)) /\
  unchanged (snd (search_with_filter env query filter_fn top_k w)) /\
  (index_count (store w) = 0 ->
   search_with_filter env query filter_fn top_k w = (Returned [], w)).
Proof.
  intros unchanged.
  assert (Hsearch : forall q k t, unchanged (snd (search env q k t w))).
  { intros q k t. destruct (search env q k t w) as [o w'] eqn:E.
    destruct (search_frame _ _ _ _ E) as (Hs & Hp & Hd & Ht & _).
    cbn [snd]. unfold unchanged. repeat split; auto.
    destruct Ht as [Ht|[Ht|Ht]].
    - exists []. rewrite app_nil_r. repeat split; auto.
    - exists [EmbedCall q]. repeat split; auto. repeat constructor.
    - exists [EmbedCall q; SearchCall k]. repeat split; auto.
      repeat constructor. }
  split; [apply Hsearch|]. split; [apply Hsearch|]. split.
  - pose proof (Hsearch query (top_k * 3)%Z SIMILARITY_THRESHOLD) as Hs.
    unfold search_with_filter, bind at 1.
    destruct (search env query (top_k * 3) SIMILARITY_THRESHOLD w)
      as [[rs|e] w1]; [|exact Hs].
    unfold bind, lift, ret.
    destruct (filter_loop filter_fn rs); exact Hs.
  - intros Hz. unfold search_with_filter, bind at 1.
    rewrite (search_on_empty query (top_k * 3) SIMILARITY_THRESHOLD w Hz).
    unfold bind, lift, ret. cbn [filter_loop].
    unfold py_prefix. destruct (top_k <? 0)%Z; rewrite firstn_nil; reflexivity.
Qed.

(** ** Statistics *)

Lemma delete_by_filename_kept (filename : string) (w w1 : World) (n : Z) :
  length (documents (store w)) = length (metadata (store w)) ->
  delete_by_filename env filename w = (Returned n, w1) ->
  (0 < n)%Z ->
  n = Z.of_nat (matching filename (store w)) /\
  documents (store w1) = map fst (retained filename (store w)) /\
  metadata (store w1) = map snd (retained filename (store w)) /\
  dimension (store w1) = dimension (store w).
Proof.
  intros Hlen H Hn. rewrite (delete_by_filename_on_parallel filename w Hlen) in H.
  destruct (0 <? Z.of_nat (matching filename (store w)))%Z eqn:EM.
  - destruct (map fst (retained filename (store w))) as [|t ds] eqn:Ek.
    + inversion H; subst. repeat split.
    + destruct (get_embeddings_batch env (t :: ds)
                  (rebuild_start (t :: ds)
                     (map snd (retained filename (store w))) w))
        as [[embs|e] w3] eqn:E; [|discriminate H].
      destruct (@get_embeddings_batch_frame _ _ _ _ E) as (Hs & _).
      destruct (np_array embs) as [arr|e]; [|discriminate H].
      destruct (faiss_add (mkIndex (dimension (store w)) []) arr);
        [|discriminate H].
      inversion H; subst.
      cbn [rebuild_end set_store set_index store documents metadata dimension].
      rewrite Hs. repeat split.
  - inversion H; subst. apply Z.ltb_ge in EM. lia.
Qed.

Lemma retained_metadata (filename : string) (docs : list string)
    (metas : list Chunk) :
  length docs = length metas ->
  map snd (filter (keeps filename) (combine docs metas))
  = filter (fun m => negb (String.eqb (get_file_name m) filename)) metas.
Proof.
  revert docs. induction metas as [|m rest IH]; intros docs H.
  - destruct docs; reflexivity.
  - destruct docs as [|t docs]; [discriminate H|]. injection H as H.
    cbn [combine filter].
    assert (Hk : keeps filename (t, m)
                 = negb (String.eqb (get_file_name m) filename)) by reflexivity.
    rewrite Hk. destruct (negb (String.eqb (get_file_name m) filename));
      cbn [map snd]; rewrite IH by assumption; reflexivity.
Qed.

Lemma map_filter_key (A B : Type) (g : A -> B) (p : B -> bool) (l : list A) :
  map g (filter (fun a => p (g a)) l) = filter p (map g l).
Proof.
  induction l as [|a l IH]; [reflexivity|]. cbn [filter map].
  destruct (p (g a)); cbn [map]; now rewrite IH.
Qed.

Lemma nodup_filter (p : string -> bool) (l : list string) :
  nodup string_dec (filter p l) = filter p (nodup string_dec l).
Proof.
  induction l as [|x l IH]; [reflexivity|]. cbn [filter nodup].
  destruct (p x) eqn:Hp.
  - cbn [nodup].
    destruct (in_dec string_dec x (filter p l)) as [Hi|Hi];
      destruct (in_dec string_dec x l) as [Hj|Hj].
    + exact IH.
    + apply filter_In in Hi. tauto.
    + exfalso. apply Hi. apply filter_In. auto.
    + cbn [filter]. rewrite Hp, IH. reflexivity.
  - destruct (in_dec string_dec x l); [exact IH|].
    cbn [filter]. rewrite Hp. exact IH.
Qed.

Lemma filter_out_absent (f : string) (l : list string) :
  ~ In f l -> filter (fun x => negb (String.eqb x f)) l = l.
Proof.
  induction l as [|x l IH]; intros H; [reflexivity|]. cbn [filter].
  destruct (String.eqb x f) eqn:E.
  - apply String.eqb_eq in E. subst. exfalso. apply H. now left.
  - cbn [negb]. rewrite IH; [reflexivity|]. intros Hin. apply H. now right.
Qed.

Lemma filter_out_one (f : string) (l : list string) :
  NoDup l -> In f l ->
  length (filter (fun x => negb (String.eqb x f)) l) + 1 = length l.
Proof.
  induction 1 as [|x l Hx Hnd IH]; intros Hin; [destruct Hin|].
  cbn [filter]. destruct (String.eqb x f) eqn:E.
  - apply String.eqb_eq in E. subst x. cbn [negb length].
    rewrite filter_out_absent by assumption. lia.
  - cbn [negb length]. destruct Hin as [Hin|Hin].
    + subst x. rewrite String.eqb_refl in E. discriminate E.
    + specialize (IH Hin). lia.
Qed.

(** The statistics before and after a delete that removed chunks: the
    number of chunks drops by the number returned, the index holds as many
    vectors as there are chunks, and the number of distinct documents drops
    by exactly one. *)
Theorem get_stats_after_delete (filename : string) (w w' : World) (n : Z) :
  aligned (store w) ->
  delete_by_filename env filename w = (Returned n, w') ->
  (0 < n)%Z ->
  exists s s',
    get_stats w = (Returned s, w) /\
    get_stats w' = (Returned s', w') /\
    total_chunks s' + Z.to_nat n = total_chunks s /\
    index_size s' = total_chunks s' /\
    unique_documents s' + 1 = unique_documents s /\
    stats_dimension s' = stats_dimension s.
Proof.
  intros Hal H Hn. pose proof Hal as [Hlen _].
  destruct (@delete_by_filename_kept _ _ _ _ Hlen H Hn) as (HM & Hd & Hm & Hdim).
  destruct (@delete_by_filename_aligned _ _ _ _ Hal H) as [_ Hidx].
  eexists. eexists. split; [reflexivity|]. split; [reflexivity|].
  cbn [total_chunks index_size unique_documents stats_dimension].
  assert (Hcount : length (retained filename (store w))
                   + matching filename (store w)
                   = length (documents (store w))).
  { unfold retained, matching. rewrite Hlen. now apply retained_count. }
  split; [|split; [|split]].
  - rewrite Hd, length_map. lia.
  - exact Hidx.
  - rewrite Hm. unfold retained. rewrite (@retained_metadata filename _ _ Hlen).
    rewrite (map_filter_key get_file_name
               (fun x => negb (String.eqb x filename))).
    rewrite nodup_filter. apply filter_out_one; [apply NoDup_nodup|].
    apply nodup_In.
    assert (Hpos : 0 < matching filename (store w)) by lia.
    unfold matching in Hpos.
    destruct (filter (fun m => String.eqb (get_file_name m) filename)
                (metadata (store w))) as [|m ms] eqn:Ef;
      [cbn in Hpos; lia|].
    assert (Hin : In m (filter (fun m => String.eqb (get_file_name m) filename)
                          (metadata (store w)))) by (rewrite Ef; now left).
    apply filter_In in Hin. destruct Hin as [Hin Heq].
    apply String.eqb_eq in Heq. rewrite <- Heq. now apply in_map.
  - exact Hdim.
Qed.

(** The button that clears all data: when the store holds texts, the store
    and its three files end up empty; when it holds none, nothing is done,
    whatever the index holds.  The provenance table and its file are never
    touched, so the documents stay listed as processed. *)
Theorem clear_all_data_effect (w w' : World) :
  clear_all_data env w = (Returned tt, w') ->
  processed_docs w' = processed_docs w /\
  provenance_file (disk w') = provenance_file (disk w) /\
  (documents (store w) = [] -> w' = w) /\
  (documents (store w) <> [] ->
   store w' = mkStore (Some (mkIndex (dimension (store w)) [])) [] []
                (dimension (store w)) /\
   index_file (disk w') = Some (Intact (mkIndex (dimension (store w)) [])) /\
   docs_file (disk w') = Some (Intact []) /\
   meta_file (disk w') = Some (Intact [])).
Proof.
  unfold clear_all_data, bind at 1, get_stats, gets. cbn [total_chunks].
  destruct (documents (store w)) as [|t docs] eqn:Ed.
  - cbn [length Nat.ltb Nat.leb]. intros H. inversion H; subst.
    repeat split; auto; intros; congruence.
  - cbn [length]. replace (0 <? S (length docs)) with true
      by (symmetry; apply Nat.ltb_lt; lia).
    unfold bind at 1. unfold clear at 1, bind, create_index, modify.
    cbn [set_store set_index set_documents set_metadata store index documents
         metadata dimension processed_docs disk trace].
    intros H.
    match type of H with
    | save env ?w0 = _ =>
        destruct (@save_returned w0 w' (mkIndex (dimension (store w)) [])
                    eq_refl H) as (Hs & Hp & Hd & _)
    end.
    cbn [store processed_docs disk documents metadata] in Hs, Hp, Hd.
    rewrite Hs, Hp, Hd. cbn [provenance_file index_file docs_file meta_file].
    repeat split; auto; intros; congruence.
Qed.

(** ** The provenance table *)

Lemma dict_get_set (V : Type) (k k' : string) (v : V) (d : list (string * V)) :
  dict_get k' (dict_set k v d)
  = if String.eqb k k' then Some v else dict_get k' d.
Proof.
  induction d as [|[k0 v0] d IH]; cbn [dict_set dict_get]; [reflexivity|].
  destruct (String.eqb k0 k) eqn:E0.
  - apply String.eqb_eq in E0. subst k0. cbn [dict_get].
    destruct (String.eqb k k'); reflexivity.
  - cbn [dict_get]. rewrite IH.
    destruct (String.eqb k0 k') eqn:E1; [|reflexivity].
    apply String.eqb_eq in E1. subst k0. rewrite String.eqb_sym, E0.
    reflexivity.
Qed.

Lemma dict_get_app (V : Type) (k : string) (a b : list (string * V)) :
  dict_get k (a ++ b)
  = match dict_get k a with Some v => Some v | None => dict_get k b end.
Proof.
  induction a as [|[k0 v0] a IH]; cbn [app dict_get]; [reflexivity|].
  destruct (String.eqb k0 k); [reflexivity|exact IH].
Qed.

Lemma dict_get_absent (V : Type) (k : string) (d : list (string * V)) :
  ~ In k (map fst d) -> dict_get k d = None.
Proof.
  induction d as [|[k0 v0] d IH]; intros H; cbn [dict_get]; [reflexivity|].
  destruct (String.eqb k0 k) eqn:E.
  - apply String.eqb_eq in E. subst. exfalso. apply H. now left.
  - apply IH. intros Hin. apply H. now right.
Qed.

(** [existing.update(new)]: the last binding of a key in [new] wins, the
    keys [new] does not hold keep their value. *)
Lemma dict_get_update (V : Type) (k : string) (d new : list (string * V)) :
  dict_get k (dict_update d new)
  = match dict_get k (rev new) with Some v => Some v | None => dict_get k d end.
Proof.
  unfold dict_update. revert d.
  induction new as [|[k0 v0] new IH]; intros d; cbn [fold_left rev];
    [reflexivity|].
  rewrite IH, dict_get_app. cbn [fst snd dict_get].
  destruct (dict_get k (rev new)); [reflexivity|].
  rewrite dict_get_set. destruct (String.eqb k0 k); reflexivity.
Qed.

Lemma dict_get_rev (V : Type) (k : string) (d : list (string * V)) :
  NoDup (map fst d) -> dict_get k (rev d) = dict_get k d.
Proof.
  induction d as [|[k0 v0] d IH]; intros H; [reflexivity|].
  cbn [map fst] in H. inversion H as [|? ? Hnotin Hnd]; subst.
  cbn [rev]. rewrite dict_get_app, (IH Hnd). cbn [dict_get].
  destruct (String.eqb k0 k) eqn:E.
  - apply String.eqb_eq in E. subst k0.
    rewrite (dict_get_absent _ _ Hnotin). reflexivity.
  - destruct (dict_get k d); reflexivity.
Qed.

Lemma dict_get_del (V : Type) (k : string) (d : list (string * V)) :
  dict_get k (rev (dict_del k d)) = None /\ dict_get k (dict_del k d) = None.
Proof.
  assert (H : ~ In k (map fst (dict_del k d))).
  { unfold dict_del. intros Hin. apply in_map_iff in Hin.
    destruct Hin as ([k0 v0] & Hk & Hin). cbn [fst] in Hk. subst k0.
    apply filter_In in Hin. destruct Hin as [_ Hf]. cbn [fst] in Hf.
    rewrite String.eqb_refl in Hf. discriminate Hf. }
  split; [|now apply dict_get_absent].
  apply dict_get_absent. intros Hin. apply H.
  rewrite map_rev in Hin. now apply in_rev in Hin.
Qed.

(** [save] leaves the provenance table and its file alone, whether it
    returns or raises. *)
Lemma save_frame (w w' : World) (o : Outcome unit) :
  save env w = (o, w') ->
  processed_docs w' = processed_docs w /\
  provenance_file (disk w') = provenance_file (disk w).
Proof.
  unfold save, bind at 1, gets.
  destruct (index (store w)) as [i|]; [|intros H; inversion H; auto].
  unfold try_except, bind, gets, write_file, raise.
  destruct (write_reply env (trace w) IndexPath);
    cbn [log set_disk store processed_docs disk trace];
    try (intros H; inversion H; subst; split; reflexivity).
  destruct (write_reply env (trace w ++ [WriteCall IndexPath]) DocsPath);
    cbn [log set_disk store processed_docs disk trace];
    try (intros H; inversion H; subst; split; reflexivity).
  destruct (write_reply env ((trace w ++ [WriteCall IndexPath]) ++ [WriteCall DocsPath])
              MetaPath);
    intros H; inversion H; subst; split; reflexivity.
Qed.

(** [save_metadata] merges: when it returns, the file holds the table that
    was in the file with the entries of the table given written over it,
    and [load_metadata] reads that back.  An entry of the file whose key is
    not in the table given is kept, so saving a table never removes a key
    from the file.  The store and its three files are not touched. *)
Theorem save_metadata_merges (table : list (string * DocInfo)) (w w' : World) :
  NoDup (map fst table) ->
  save_metadata env table w = (Returned tt, w') ->
  load_metadata w' = (Returned (stored_table (disk w')), w') /\
  provenance_file (disk w') = Some (Intact (stored_table (disk w'))) /\
  (forall k,
     dict_get k (stored_table (disk w'))
     = match dict_get k table with
       | Some v => Some v
       | None => dict_get k (stored_table (disk w))
       end) /\
  store w' = store w /\ processed_docs w' = processed_docs w /\
  index_file (disk w') = index_file (disk w) /\
  docs_file (disk w') = docs_file (disk w) /\
  meta_file (disk w') = meta_file (disk w).
Proof.
  intros Hnd.
  cbv beta iota zeta delta [save_metadata try_except bind load_metadata gets
                            write_file raise].
  destruct (write_reply env (trace w) ProvenancePath); cbv beta iota zeta;
    intros H; try discriminate H.
  inversion H; subst. clear H.
  unfold stored_table at 1 2 3.
  cbn [set_disk log disk set_provenance_file provenance_file store
       processed_docs index_file docs_file meta_file].
  split; [reflexivity|]. split; [reflexivity|]. split; [|repeat split].
  intros k. rewrite dict_get_update, (@dict_get_rev _ k table Hnd).
  reflexivity.
Qed.

(** [delete_document] takes the document out of the table in memory, but
    the provenance file, if it listed the document, still lists it when
    the call returns: the table saved is merged into the file.  A process
    started afterwards reads the document as processed. *)
Theorem delete_document_keeps_file_entry (filename h : string)
    (d v : DocInfo) (w w' : World) (n : Z) :
  find (fun kv => String.eqb (doc_file_name (snd kv)) filename) (processed_docs w)
  = Some (h, d) ->
  h <> EmptyString ->
  dict_get h (stored_table (disk w)) = Some v ->
  delete_document env filename w = (Returned n, w') ->
  dict_get h (processed_docs w') = None /\
  dict_get h (stored_table (disk w')) = Some v /\
  load_metadata w' = (Returned (stored_table (disk w')), w').
Proof.
  intros Hfind Hne Hfile.
  unfold delete_document, bind at 1, gets. rewrite Hfind.
  apply String.eqb_neq in Hne. rewrite Hne.
  unfold bind at 1.
  cbv beta iota zeta delta [save_metadata try_except bind modify gets
                            load_metadata write_file raise ret].
  cbn [set_processed_docs processed_docs disk trace store].
  destruct (write_reply env (trace w) ProvenancePath); cbv beta iota zeta;
    try (intros H; discriminate H).
  match goal with
  | |- context [delete_by_filename env filename ?w0] =>
      set (w1 := w0);
      destruct (delete_by_filename env filename w1) as [[r|e] w2] eqn:Edel;
      [|intros H; discriminate H]
  end.
  destruct (@delete_by_filename_frame _ _ _ _ Edel) as [Hd Hp].
  assert (Hgoal : dict_get h (processed_docs w2) = None /\
                  dict_get h (stored_table (disk w2)) = Some v).
  { rewrite Hd, Hp. unfold w1, stored_table.
    cbn [set_disk log disk set_provenance_file provenance_file processed_docs].
    split; [apply dict_get_del|].
    rewrite dict_get_update. rewrite (proj1 (dict_get_del h (processed_docs w))).
    exact Hfile. }
  clearbody w1. destruct Hgoal as [G1 G2].
  destruct (0 <? r)%Z.
  - destruct (save env w2) as [[[]|e] w3] eqn:Es; [|intros H; discriminate H].
    intros H. inversion H; subst.
    destruct (@save_frame _ _ _ Es) as (Hp3 & Hd3).
    unfold load_metadata, gets, stored_table in *. rewrite Hp3, Hd3. auto.
  - intros H. inversion H; subst. unfold load_metadata, gets, stored_table.
    auto.
Qed.

(** ** Hybrid retrieval *)

Lemma insert_by_score_perm (x : HybridResult) (l : list HybridResult) :
  Permutation (insert_by_score x l) (x :: l).
Proof.
  induction l as [|y rest IH]; cbn [insert_by_score]; [reflexivity|].
  destruct (r_score (h_result x) <? r_score (h_result y))%float; [|reflexivity].
  rewrite IH. apply perm_swap.
Qed.

Lemma sort_by_score_perm (l : list HybridResult) :
  Permutation (sort_by_score l) l.
Proof.
  induction l as [|x rest IH]; cbn [sort_by_score fold_right]; [reflexivity|].
  fold (sort_by_score rest). rewrite insert_by_score_perm. now constructor.
Qed.

Lemma insert_by_score_sorted (x : HybridResult) (l : list HybridResult) :
  Sorted score_not_ascending l -> Sorted score_not_ascending (insert_by_score x l).
Proof.
  induction l as [|y rest IH]; intros Hs; cbn [insert_by_score].
  - repeat constructor.
  - destruct (r_score (h_result x) <? r_score (h_result y))%float eqn:E.
    + inversion Hs as [|? ? Hrest Hhd]; subst.
      constructor; [now apply IH|].
      destruct rest as [|z rest']; cbn [insert_by_score].
      * constructor. unfold score_not_ascending. now apply float_ltb_asym.
      * destruct (r_score (h_result x) <? r_score (h_result z))%float.
        -- inversion Hhd; subst. now constructor.
        -- constructor. unfold score_not_ascending. now apply float_ltb_asym.
    + constructor; [assumption|]. constructor. exact E.
Qed.

Lemma sort_by_score_sorted (l : list HybridResult) :
  Sorted score_not_ascending (sort_by_score l).
Proof.
  induction l as [|x rest IH]; cbn [sort_by_score fold_right]; [constructor|].
  now apply insert_by_score_sorted.
Qed.

(** [retrieve_hybrid] without keywords hands back what [retrieve] returns.
    With keywords every record handed back is a record of [retrieve] whose
    score has been multiplied by [1 + 0.1 * matches] when at least one
    keyword occurs in its text, and left alone otherwise; nothing but the
    score is changed, the rank included; the records are in descending
    order of the new scores and, for a [top_k] that is not negative, none
    is dropped beyond the first [top_k]. *)
Theorem retrieve_hybrid_result (lower : string -> string) (query : string)
    (keywords : option (list string)) (top_k : Z) (w w' : World)
    (out : list HybridResult) :
  retrieve_hybrid env lower query keywords top_k w = (Returned out, w') ->
  exists rs,
    retrieve env query top_k w = (Returned rs, w') /\
    match keywords with
    | None | Some [] => out = map (fun r => mkHybrid r None) rs
    | Some kws =>
        Sorted score_not_ascending out /\
        (forall h, In h out ->
           exists r, In r rs /\ h = boost lower kws r /\
             r_text (h_result h) = r_text r /\
             r_metadata (h_result h) = r_metadata r /\
             r_distance (h_result h) = r_distance r /\
             r_rank (h_result h) = r_rank r /\
             (keyword_matches lower kws (r_text r) = 0%Z ->
              h = mkHybrid r None) /\
             ((0 < keyword_matches lower kws (r_text r))%Z ->
              h_keyword_matches h = Some (keyword_matches lower kws (r_text r)) /\
              r_score (h_result h)
              = (r_score r
                 * (1 + tenth * float_of_Z (keyword_matches lower kws (r_text r))))%float)) /\
        ((0 <= top_k)%Z -> length out = Nat.min (Z.to_nat top_k) (length rs))
    end.
Proof.
  unfold retrieve_hybrid, bind at 1.
  destruct (retrieve env query top_k w) as [[rs|e] w1]; [|intros H; discriminate H].
  destruct keywords as [[|kw kws]|]; unfold ret; intros H; inversion H; subst;
    exists rs; (split; [reflexivity|]); try reflexivity.
  set (l := map (boost lower (kw :: kws)) rs).
  destruct (py_prefix_firstn (sort_by_score l) top_k) as (m & Hm & Hk).
  rewrite Hm. split; [|split].
  - apply firstn_sorted. apply sort_by_score_sorted.
  - intros h Hh.
    apply (@subseq_In _ _ _ h (subseq_firstn m (sort_by_score l))) in Hh.
    apply (Permutation_in _ (sort_by_score_perm l)) in Hh.
    unfold l in Hh. apply in_map_iff in Hh. destruct Hh as (r & Hb & Hr).
    exists r. split; [exact Hr|]. split; [now symmetry|]. subst h.
    unfold boost.
    destruct (0 <? keyword_matches lower (kw :: kws) (r_text r))%Z eqn:E;
      cbn [h_result h_keyword_matches set_score r_text r_metadata r_distance
           r_rank r_score]; repeat split; auto; intros;
      try (apply Z.ltb_ge in E; lia).
    match goal with
    | Hz : keyword_matches _ _ _ = 0%Z |- _ => rewrite Hz in E; discriminate E
    end.
  - intros Hpos. rewrite (Hk Hpos), length_firstn.
    rewrite (Permutation_length (sort_by_score_perm l)). unfold l.
    now rewrite length_map.
Qed.

(** ** Helpers *)






(** ** More on reranking and adding *)

Lemma py_int_nonneg (digits : list N) (z : Z) :
  py_int env digits = Returned z -> (0 <= z)%Z.
Proof.
  unfold py_int. destruct digits as [|c0 cs]; [discriminate|].
  generalize (c0 :: cs) as l. clear c0 cs.
  assert (H : forall l acc,
            (forall a, acc = Returned a -> (0 <= a)%Z) ->
            fold_left
              (fun acc c =>
                 match acc, decimal env c with
                 | Returned a, Some d => Returned (a * 10 + Z.of_nat d)%Z
                 | Returned _, None => Raised ValueError
                 | Raised e, _ => Raised e
                 end) l acc = Returned z -> (0 <= z)%Z).
  { induction l as [|c l IH]; intros acc Hacc; cbn [fold_left].
    - intros E. now apply Hacc.
    - apply IH. intros a Ha. destruct acc as [a0|e]; [|discriminate Ha].
      destruct (decimal env c) as [d|]; [|discriminate Ha].
      inversion Ha; subst. specialize (Hacc a0 eq_refl). lia. }
  intros l. apply H. intros a Ha. inversion Ha. lia.
Qed.

Lemma llm_score_cases (tr : list Event) (query : string) (c : Result) :
  llm_score env tr query c = fallback_score c \/
  exists z, llm_score env tr query c = PyInt z /\ (0 <= z)%Z.
Proof.
  unfold llm_score.
  destruct (generate_reply env tr (rerank_prompt query c)) as [resp|e];
    [|now left].
  unfold score_of_response.
  destruct (filter (isdigit env) (map code_point (firstn 10 (chars resp))))
    as [|d ds]; [now left|].
  destruct (py_int env (d :: ds)) as [z|e] eqn:E; [|now left].
  right. exists z. split; [reflexivity|]. exact (py_int_nonneg _ E).
Qed.

Lemma scored_from_In (tr : list Event) (query : string) (chunks : list Result)
    (p : Num * Result) :
  In p (scored_from env tr query chunks) ->
  exists c, In c chunks /\ snd p = set_rerank_score (fst p) c /\
            (fst p = fallback_score c \/ exists z, fst p = PyInt z /\ (0 <= z)%Z).
Proof.
  revert tr. induction chunks as [|c rest IH]; intros tr H; [destruct H|].
  cbn [scored_from] in H. destruct H as [H|H].
  - subst p. exists c. cbn [fst snd]. split; [now left|]. split; [reflexivity|].
    apply llm_score_cases.
  - destruct (IH _ H) as (c' & Hin & Hp). exists c'. split; [now right|exact Hp].
Qed.

(** Reranking never raises, whatever the model does: it makes one scoring
    call per candidate and touches nothing else.  Every record handed back
    is one of the candidates with nothing but its rerank score set, and
    that score is ten times its similarity or an integer that is not
    negative.  For a [top_k] that is not negative it hands back [top_k]
    records, or all of them when there are fewer. *)
Theorem rerank_never_raises (query : string) (chunks : list Result) (top_k : Z)
    (w : World) :
  exists out,
    _rerank_with_llm env query chunks top_k w
    = (Returned out,
       mkWorld (store w) (processed_docs w) (disk w)
         (trace w ++ map (fun c => GenerateCall (rerank_prompt query c)) chunks)) /\
    (forall r, In r out ->
       exists c n,
         In c chunks /\ r = set_rerank_score n c /\
         (n = fallback_score c \/ exists z, n = PyInt z /\ (0 <= z)%Z)) /\
    ((0 <= top_k)%Z -> length out = Nat.min (Z.to_nat top_k) (length chunks)).
Proof.
  unfold _rerank_with_llm, bind. rewrite rerank_loop_run. unfold ret.
  eexists. split; [reflexivity|].
  set (scored := scored_from env (trace w) query chunks).
  destruct (py_prefix_firstn (map snd (sort_desc scored)) top_k) as (m & Hm & Hk).
  rewrite Hm. split.
  - intros r Hr.
    apply (@subseq_In _ _ _ r (subseq_firstn m (map snd (sort_desc scored)))) in Hr.
    apply in_map_iff in Hr. destruct Hr as (p & Hp & Hin).
    apply (Permutation_in _ (sort_desc_perm scored)) in Hin.
    destruct (scored_from_In _ _ _ _ Hin) as (c & Hc & Hs & Hn).
    exists c, (fst p). subst r. auto.
  - intros Hpos. rewrite (Hk Hpos), length_firstn, length_map.
    rewrite (Permutation_length (sort_desc_perm scored)).
    unfold scored. now rewrite scored_from_length.
Qed.

(** When the provider answers with vectors that are not all of the index's
    dimension (a missing [embedding] key gives the empty vector),
    [add_documents] raises [ValueError] or [AssertionError] once every text
    has been embedded, and appends nothing. *)
Theorem add_documents_dimension_mismatch (chunks : list Chunk) (bs : Z)
    (w w1 : World) (i : Index) (embs : list Vec) :
  (0 < bs)%Z ->
  index (store (ensure_index w)) = Some i ->
  get_embeddings_batch env (map text chunks) (ensure_index w) = (Returned embs, w1) ->
  ~ Forall (fun v => length v = dim i) embs ->
  (add_documents env chunks bs w = (Raised ValueError, w1) \/
   add_documents env chunks bs w = (Raised AssertionError, w1)) /\
  store w1 = store (ensure_index w) /\
  documents (store w1) = documents (store w) /\
  metadata (store w1) = metadata (store w) /\
  index_rows (store w1) = index_rows (store w).
Proof.
  intros Hbs Hi E Hbad.
  destruct (@get_embeddings_batch_frame _ _ _ _ E) as (Hs & _).
  destruct (ensure_index_frame w) as (Hd & Hm & Hr & _).
  assert (Hframe : store w1 = store (ensure_index w) /\
                   documents (store w1) = documents (store w) /\
                   metadata (store w1) = metadata (store w) /\
                   index_rows (store w1) = index_rows (store w))
    by (rewrite Hs; auto).
  split; [|exact Hframe].
  destruct chunks as [|c cs].
  - cbn [map get_embeddings_batch] in E. inversion E; subst.
    exfalso. apply Hbad. constructor.
  - rewrite add_documents_unfold by assumption. rewrite E, Hs, Hi.
    destruct embs as [|v vs]; [now left|].
    unfold np_array, faiss_add.
    destruct (forallb (fun u => length u =? length v) vs) eqn:Ef; [|now left].
    destruct (length v =? dim i) eqn:Ev; [|now right].
    exfalso. apply Hbad. apply Nat.eqb_eq in Ev.
    constructor; [exact Ev|]. apply Forall_forall. intros u Hu.
    rewrite forallb_forall in Ef. specialize (Ef u Hu).
    apply Nat.eqb_eq in Ef. congruence.
Qed.

(** ** Failures while writing *)

(** [save] is not all or nothing: when the index has been written and the
    write of the texts is refused, [save] raises and the files hold the new
    index beside the texts and records saved before.  [load] takes such
    files as they are: a store created on them holds the new index with
    the old texts and records. *)
Theorem save_failure_leaves_mixed_files (w : World) (i : Index)
    (old_docs : list string) (old_metas : list Chunk) :
  index (store w) = Some i ->
  write_reply env (trace w) IndexPath = WriteDone ->
  write_reply env (trace w ++ [WriteCall IndexPath]) DocsPath = WriteRefused ->
  docs_file (disk w) = Some (Intact old_docs) ->
  meta_file (disk w) = Some (Intact old_metas) ->
  exists w',
    save env w = (Raised OSError, w') /\
    store w' = store w /\
    disk w' = mkDisk (Some (Intact i)) (Some (Intact old_docs))
                (Some (Intact old_metas)) (provenance_file (disk w)) /\
    forall reader : World,
      disk reader = disk w' ->
      exists reader',
        FAISSVectorStore_init reader = (Returned tt, reader') /\
        index (store reader') = Some i /\
        documents (store reader') = old_docs /\
        metadata (store reader') = old_metas.
Proof.
  intros Hi H1 H2 Hd Hm. eexists. split; [|split; [|split]].
  - unfold save, bind at 1, gets. rewrite Hi.
    unfold try_except, bind, gets, write_file, raise. rewrite H1.
    cbn [log set_disk store processed_docs disk trace]. rewrite H2.
    reflexivity.
  - reflexivity.
  - cbn [log set_disk store processed_docs disk trace set_index_file
         index_file docs_file meta_file provenance_file].
    unfold set_index_file. rewrite Hd, Hm. reflexivity.
  - intros reader Hr. eexists.
    unfold FAISSVectorStore_init, bind, modify. split.
    + apply load_intact; cbn [set_store disk]; rewrite Hr;
        cbn [log set_disk store processed_docs disk trace];
        unfold set_index_file; cbn [index_file docs_file meta_file];
        [reflexivity|exact Hd|exact Hm].
    + cbn [set_store store index documents metadata]. auto.
Qed.

(** When the provenance file cannot be written, [delete_document] raises
    before the store is asked to delete anything: the document is gone
    from the table in memory while its chunks, the index and the store's
    three files are all as before. *)
Theorem delete_document_provenance_failure (filename h : string) (d : DocInfo)
    (w : World) :
  find (fun kv => String.eqb (doc_file_name (snd kv)) filename) (processed_docs w)
  = Some (h, d) ->
  h <> EmptyString ->
  write_reply env (trace w) ProvenancePath <> WriteDone ->
  exists w',
    delete_document env filename w = (Raised OSError, w') /\
    processed_docs w' = dict_del h (processed_docs w) /\
    dict_get h (processed_docs w') = None /\
    store w' = store w /\
    index_file (disk w') = index_file (disk w) /\
    docs_file (disk w') = docs_file (disk w) /\
    meta_file (disk w') = meta_file (disk w) /\
    trace w' = trace w ++ [WriteCall ProvenancePath].
Proof.
  intros Hfind Hne Hw.
  unfold delete_document, bind at 1, gets. rewrite Hfind.
  apply String.eqb_neq in Hne. rewrite Hne.
  unfold bind at 1.
  cbv beta iota zeta delta [save_metadata try_except bind modify gets
                            load_metadata write_file raise ret].
  cbn [set_processed_docs processed_docs disk trace store].
  destruct (write_reply env (trace w) ProvenancePath); [congruence| |];
    cbv beta iota zeta; eexists; (split; [reflexivity|]);
    cbn [log set_disk set_provenance_file store processed_docs disk trace
         index_file docs_file meta_file];
    repeat split; apply dict_get_del.
Qed.

End Properties.

(** * Worked examples *)



(** C8: the answer [9] followed by a superscript two passes [str.isdigit]
    twice and is refused by [int], so the candidate gets the fallback; the
    answer [8/10] gives 810. *)
Lemma scoring_examples :
  let superscript_answer :=
    String "9" (String (ascii_of_nat 194) (String (ascii_of_nat 178) EmptyString)) in
  let c := mkResult "t" (mkChunk "t" None) 0.5%float 1%float 1 None in
  map code_point (chars superscript_answer) = [57%N; 178%N] /\
  score_of_response steady_env superscript_answer c = Raised ValueError /\
  score_of_response steady_env "8/10" c = Returned (PyInt 810) /\
  score_of_response steady_env "none" c = Returned (PyFloat 5).
Proof.
  repeat split; vm_compute; reflexivity.
Qed.

(** C2: with the provider down, [add_documents] on a new store raises and
    leaves an index where there was none. *)
Lemma add_documents_failure_creates_index :
  fst (add_documents provider_down_env [chunk_of "a" "a.txt"] 32 fresh_world)
  = Raised RequestException /\
  index (store fresh_world) = None /\
  index (store (snd (add_documents provider_down_env [chunk_of "a" "a.txt"] 32
                       fresh_world)))
  = Some (mkIndex EMBEDDING_DIM []).
Proof.
  repeat split.
Qed.


(** C4: [delete_document] on the saved store; the files hold what is left. *)
Lemma delete_document_persists_witness :
  exists i,
    index_file (disk (snd (delete_document steady_env "a.txt" tracked_world)))
    = Some (Intact i) /\
    ntotal i = 3 /\
    docs_file (disk (snd (delete_document steady_env "a.txt" tracked_world)))
    = Some (Intact ["bb"; "dddd"; "eeeee"]%string).
Proof.
  pose (run := delete_document steady_env "a.txt" tracked_world).
  assert (H : run = (Returned 2%Z, snd run)) by (vm_compute; reflexivity).
  destruct (@delete_document_persists steady_env "a.txt" tracked_world (snd run)
              2%Z H eq_refl)
    as (w0 & w1 & i & _ & _ & _ & _ & _ & Hi & Hif & Hdf & _).
  exists i. fold run. split; [exact Hif|]. split.
  - assert (Hc : index_count (store (snd run)) = 3) by (vm_compute; reflexivity).
    unfold index_count in Hc. rewrite Hi in Hc. exact Hc.
  - rewrite Hdf. vm_compute. reflexivity.
Defined.

(** C4: the engine's own delete returns with two chunks removed and the
    files untouched; a process started on them loads the five chunks. *)
Lemma delete_by_filename_does_not_save :
  fst (delete_by_filename steady_env "a.txt" saved_world) = Returned 2%Z /\
  length (documents (store (snd (delete_by_filename steady_env "a.txt" saved_world))))
  = 3 /\
  disk (snd (delete_by_filename steady_env "a.txt" saved_world)) = disk saved_world /\
  documents
    (store (snd (FAISSVectorStore_init
                   (snd (delete_by_filename steady_env "a.txt" saved_world)))))
  = ["a"; "bb"; "ccc"; "dddd"; "eeeee"]%string.
Proof.
  repeat split; vm_compute; reflexivity.
Qed.



(** C6: the query [bb] on the five sample chunks with threshold 0.25. *)
Lemma rank_is_candidate_position_witness :
  exists rs,
    fst (search steady_env "bb" 3 0.25%float stocked_world) = Returned rs /\
    forall j1 j2 r1 r2,
      j1 < j2 -> nth_error rs j1 = Some r1 -> nth_error rs j2 = Some r2 ->
      (r_rank r1 < r_rank r2)%Z.
Proof.
  pose (run := search steady_env "bb" 3 0.25%float stocked_world).
  assert (H : run = (Returned (returned_or [] (fst run)), snd run))
    by (vm_compute; reflexivity).
  exists (returned_or [] (fst run)). split.
  - fold run. rewrite H at 1. reflexivity.
  - exact (proj2 (@rank_is_candidate_position steady_env "bb" 3 0.25%float
                    stocked_world (snd run) (returned_or [] (fst run)) H)).
Defined.

(** C6: after a save that failed on the texts, the restarted store holds
    two vectors and one text; the nearest vector has no text, so the one
    record returned is the second candidate and its rank is 2. *)
Lemma rank_skips_dropped_candidate :
  exists r,
    fst (worn_session "bb" fresh_world) = Returned [r] /\
    r_text r = "a"%string /\
    r_rank r = 2%Z /\
    (dense_ranks [r] -> False).
Proof.
  eexists (mkResult _ _ _ _ _ _). split; [vm_compute; reflexivity|].
  repeat split. intros H. specialize (H 0 _ eq_refl). discriminate H.
Qed.

(** C7: a query on a new store. *)
Lemma search_empty_store_witness :
  index_count (store fresh_world) = 0 /\
  search steady_env "bb" 5 0.5%float fresh_world = (Returned [], fresh_world).
Proof.
  split; [reflexivity|].
  exact (proj1 (@search_empty_store steady_env "bb" 5 0.5%float fresh_world
                  eq_refl)).
Defined.

(** C8: a reranked query for two chunks on the five sample chunks: four
    candidates are fetched and scored, three are returned. *)
Lemma rerank_fan_out_witness :
  exists rs w',
    query_context steady_env "bb" 2 true stocked_world = (Returned rs, w') /\
    length rs = 3 /\
    trace w' = trace stocked_world
               ++ [EmbedCall "bb"; SearchCall 4]
               ++ map (fun c => GenerateCall (rerank_prompt "bb" c))
                    (returned_or []
                       (fst (search steady_env "bb" 4 0%float stocked_world))).
Proof.
  pose (run := search steady_env "bb" (2 * 2) SIMILARITY_THRESHOLD stocked_world).
  assert (H : run = (Returned (returned_or [] (fst run)), snd run))
    by (vm_compute; reflexivity).
  assert (Hlt : (RERANK_TOP_K < Z.of_nat (length (returned_or [] (fst run))))%Z)
    by (vm_compute; reflexivity).
  pose proof (@rerank_fan_out steady_env "bb" 2 stocked_world (snd run)
                (returned_or [] (fst run)) H Hlt) as P.
  cbv zeta in P. destruct P as (Hq & Ht & _ & _ & _ & _ & _ & H3 & _).
  eexists. eexists. split; [exact Hq|]. split.
  - rewrite length_map. exact H3.
  - cbn [trace]. rewrite Ht, <- app_assoc. reflexivity.
Defined.

(** C8: [retrieve_with_rerank] asks the engine for [top_k] candidates, not
    for twice as many, and with two candidates it makes no scoring call and
    returns them without a rerank score. *)
Lemma rerank_skipped_on_few_candidates :
  exists r1 r2,
    retrieve_with_rerank steady_env "bb" 5 3 small_world
    = (Returned [r1; r2],
       mkWorld (store small_world) (processed_docs small_world) (disk small_world)
         (trace small_world ++ [EmbedCall "bb"; SearchCall 5])) /\
    r_rerank_score r1 = None /\ r_rerank_score r2 = None.
Proof.
  eexists (mkResult _ _ _ _ _ _), (mkResult _ _ _ _ _ _).
  split; [vm_compute; reflexivity|]. split; reflexivity.
Qed.

(** C9: a process started on a snapshot whose records cannot be read ends
    with the text of the snapshot, no record and an empty index.  Such a
    snapshot is what a save leaves when the write of the records fails
    half way. *)
Lemma load_failure_keeps_loaded_texts_witness :
  disk (snd (save tearing_env
               (snd (add_documents tearing_env [chunk_of "a" "a.txt"] 32
                       fresh_world))))
  = torn_records_disk /\
  exists w',
    load torn_start = (Returned tt, w') /\
    index (store w') = Some (mkIndex EMBEDDING_DIM []) /\
    documents (store w') = ["a"%string] /\
    metadata (store w') = [] /\
    (aligned (store w') -> False).
Proof.
  split; [vm_compute; reflexivity|].
  eexists. split.
  - exact (@load_failure_keeps_loaded_texts torn_start
             (mkIndex EMBEDDING_DIM [axis 1%float]) ["a"%string]
             eq_refl eq_refl (or_intror eq_refl)).
  - repeat split. intros [H _]. discriminate H.
Defined.

(** C10: a reranked retrieval on a store of two chunks. *)
Lemma rerank_short_circuit_witness :
  exists rs w1,
    retrieve_with_rerank steady_env "bb" 5 3 small_world = (Returned rs, w1) /\
    length rs = 2 /\
    Forall (fun r => r_rerank_score r = None) rs.
Proof.
  pose (run := retrieve steady_env "bb" 5 small_world).
  assert (H : run = (Returned (returned_or [] (fst run)), snd run))
    by (vm_compute; reflexivity).
  assert (Hle : (Z.of_nat (length (returned_or [] (fst run))) <= 3)%Z)
    by (vm_compute; discriminate).
  destruct (@rerank_short_circuit steady_env "bb" 5 3 small_world (snd run)
              (returned_or [] (fst run)) H Hle) as (Hr & Hnone & _).
  exists (returned_or [] (fst run)), (snd run).
  split; [exact Hr|]. split; [vm_compute; reflexivity|exact Hnone].
Defined.

(** * Worked examples of the further properties *)

(** The five sample chunks saved and loaded by a new process. *)
Lemma save_load_round_trip_witness :
  index (store stocked_world) = Some stocked_index /\
  exists reader',
    FAISSVectorStore_init saved_world = (Returned tt, reader') /\
    index (store reader') = Some stocked_index /\
    documents (store reader') = ["a"; "bb"; "ccc"; "dddd"; "eeeee"]%string.
Proof.
  assert (Hi : index (store stocked_world) = Some stocked_index)
    by (vm_compute; reflexivity).
  assert (Hs : save steady_env stocked_world = (Returned tt, saved_world))
    by (vm_compute; reflexivity).
  split; [exact Hi|].
  destruct (@save_load_round_trip steady_env stocked_world saved_world
              stocked_index Hi Hs) as [_ Hr].
  destruct (Hr saved_world eq_refl) as (reader' & Hinit & Hidx & Hd & _).
  exists reader'. split; [exact Hinit|]. split; [exact Hidx|].
  rewrite Hd. vm_compute. reflexivity.
Defined.

(** A new process on files whose index cannot be read. *)
Lemma init_with_unreadable_index_or_texts_witness :
  index_file (disk damaged_index_start) = Some Damaged /\
  documents (store (snd (FAISSVectorStore_init damaged_index_start))) = [] /\
  index (store (snd (FAISSVectorStore_init damaged_index_start)))
  = Some (mkIndex EMBEDDING_DIM []).
Proof.
  split; [reflexivity|].
  destruct (@init_with_unreadable_index_or_texts damaged_index_start
              (or_introl eq_refl)) as [H _].
  rewrite H. split; reflexivity.
Defined.

(** No chunk of [a.txt] is found after [a.txt] was deleted. *)
Lemma delete_then_search_witness :
  exists w1,
    delete_by_filename steady_env "a.txt" stocked_world = (Returned 2%Z, w1) /\
    forall query top_k thr rs w2,
      search steady_env query top_k thr w1 = (Returned rs, w2) ->
      Forall (fun r => get_file_name (r_metadata r) <> "a.txt"%string) rs.
Proof.
  pose (run := delete_by_filename steady_env "a.txt" stocked_world).
  assert (H : run = (Returned 2%Z, snd run)) by (vm_compute; reflexivity).
  exists (snd run). split; [exact H|].
  exact (proj2 (@delete_then_search steady_env "a.txt" stocked_world (snd run)
                  2%Z eq_refl H)).
Defined.

(** Deleting [a.txt] a second time. *)
Lemma delete_by_filename_twice_witness :
  exists w1,
    delete_by_filename steady_env "a.txt" stocked_world = (Returned 2%Z, w1) /\
    delete_by_filename steady_env "a.txt" w1 = (Returned 0%Z, w1).
Proof.
  pose (run := delete_by_filename steady_env "a.txt" stocked_world).
  assert (H : run = (Returned 2%Z, snd run)) by (vm_compute; reflexivity).
  exists (snd run). split; [exact H|].
  exact (@delete_by_filename_twice steady_env "a.txt" stocked_world (snd run)
           2%Z eq_refl H).
Defined.

(** Deleting [a.txt] while the provider is down. *)
Lemma delete_by_filename_provider_failure_witness :
  fst (delete_by_filename provider_down_env "a.txt" stocked_world)
  = Raised RequestException /\
  documents (store (snd (delete_by_filename provider_down_env "a.txt"
                           stocked_world)))
  = ["bb"; "dddd"; "eeeee"]%string /\
  index_count (store (snd (delete_by_filename provider_down_env "a.txt"
                             stocked_world))) = 0.
Proof.
  pose (kept := retained "a.txt" (store stocked_world)).
  pose (run := get_embeddings_batch provider_down_env (map fst kept)
                 (rebuild_start (map fst kept) (map snd kept) stocked_world)).
  assert (E : run = (Raised RequestException, snd run))
    by (vm_compute; reflexivity).
  assert (HM : 0 < matching "a.txt" (store stocked_world))
    by (vm_compute; lia).
  destruct (@delete_by_filename_provider_failure provider_down_env "a.txt"
              stocked_world (snd run) RequestException eq_refl HM E)
    as (Hdel & Hd & _ & Hi & _).
  rewrite Hdel. cbn [fst snd]. split; [reflexivity|]. split.
  - rewrite Hd. vm_compute. reflexivity.
  - unfold index_count. rewrite Hi. reflexivity.
Defined.

(** The nearest chunk of [b.txt] to the query [bb]. *)
Lemma search_with_filter_result_witness :
  exists out,
    fst (search_with_filter steady_env "bb" of_b_txt 1 stocked_world)
    = Returned out /\
    Forall (fun r => of_b_txt (r_metadata r) = Returned true) out /\
    length out <= 1.
Proof.
  pose (run := search_with_filter steady_env "bb" of_b_txt 1 stocked_world).
  assert (H : run = (Returned (returned_or [] (fst run)), snd run))
    by (vm_compute; reflexivity).
  destruct (@search_with_filter_result steady_env "bb" of_b_txt 1 stocked_world
              (snd run) (returned_or [] (fst run)) H)
    as (rs & _ & _ & Hall & Hk).
  exists (returned_or [] (fst run)). split; [|split].
  - fold run. rewrite H at 1. reflexivity.
  - exact Hall.
  - exact (proj1 (Hk ltac:(lia))).
Defined.

(** The statistics before and after [a.txt] is deleted. *)
Lemma get_stats_after_delete_witness :
  aligned (store stocked_world) /\
  exists w' s s',
    delete_by_filename steady_env "a.txt" stocked_world = (Returned 2%Z, w') /\
    get_stats stocked_world = (Returned s, stocked_world) /\
    get_stats w' = (Returned s', w') /\
    total_chunks s' + 2 = total_chunks s /\
    unique_documents s' + 1 = unique_documents s.
Proof.
  assert (Hal : aligned (store stocked_world))
    by (split; vm_compute; reflexivity).
  split; [exact Hal|].
  pose (run := delete_by_filename steady_env "a.txt" stocked_world).
  assert (H : run = (Returned 2%Z, snd run)) by (vm_compute; reflexivity).
  destruct (@get_stats_after_delete steady_env "a.txt" stocked_world (snd run)
              2%Z Hal H eq_refl) as (s & s' & Hs & Hs' & Ht & _ & Hu & _).
  exists (snd run), s, s'. repeat split; assumption.
Defined.

(** The button that clears all data, on the five sample chunks. *)
Lemma clear_all_data_effect_witness :
  exists w',
    clear_all_data steady_env tracked_world = (Returned tt, w') /\
    processed_docs w' = processed_docs tracked_world /\
    documents (store w') = [] /\
    docs_file (disk w') = Some (Intact []).
Proof.
  pose (run := clear_all_data steady_env tracked_world).
  assert (H : run = (Returned tt, snd run)) by (vm_compute; reflexivity).
  destruct (@clear_all_data_effect steady_env tracked_world (snd run) H)
    as (Hp & _ & _ & Hfull).
  assert (Hne : documents (store tracked_world) <> [])
    by (vm_compute; discriminate).
  destruct (Hfull Hne) as (Hs & _ & Hd & _).
  exists (snd run). split; [exact H|]. split; [exact Hp|].
  split; [rewrite Hs; reflexivity|exact Hd].
Defined.

(** A one-entry table saved over the two-entry provenance file. *)
Lemma save_metadata_merges_witness :
  NoDup (map fst [("h9"%string, mkDocInfo "z.txt" 1)]) /\
  exists w',
    save_metadata steady_env [("h9"%string, mkDocInfo "z.txt" 1)] listed_world
    = (Returned tt, w') /\
    dict_get "h1" (stored_table (disk w')) = Some (mkDocInfo "a.txt" 2) /\
    dict_get "h9" (stored_table (disk w')) = Some (mkDocInfo "z.txt" 1).
Proof.
  assert (Hnd : NoDup (map fst [("h9"%string, mkDocInfo "z.txt" 1)]))
    by (repeat constructor; intros []).
  split; [exact Hnd|].
  pose (run := save_metadata steady_env [("h9"%string, mkDocInfo "z.txt" 1)]
                 listed_world).
  assert (H : run = (Returned tt, snd run)) by (vm_compute; reflexivity).
  destruct (@save_metadata_merges steady_env _ listed_world (snd run) Hnd H)
    as (_ & _ & Hget & _).
  exists (snd run). split; [exact H|].
  split; rewrite Hget; reflexivity.
Defined.

(** [a.txt] deleted: gone from the table in memory, still in the file. *)
Lemma delete_document_keeps_file_entry_witness :
  exists w',
    delete_document steady_env "a.txt" listed_world = (Returned 2%Z, w') /\
    dict_get "h1" (processed_docs w') = None /\
    dict_get "h1" (stored_table (disk w')) = Some (mkDocInfo "a.txt" 2).
Proof.
  pose (run := delete_document steady_env "a.txt" listed_world).
  assert (H : run = (Returned 2%Z, snd run)) by (vm_compute; reflexivity).
  assert (Hne : "h1"%string <> EmptyString) by discriminate.
  destruct (@delete_document_keeps_file_entry steady_env "a.txt" "h1"
              (mkDocInfo "a.txt" 2) (mkDocInfo "a.txt" 2) listed_world
              (snd run) 2%Z eq_refl Hne eq_refl H) as (Hmem & Hfile & _).
  exists (snd run). auto.
Defined.

(** The query [bb] with the keyword [bb], texts compared as they are. *)
Lemma retrieve_hybrid_result_witness :
  exists out,
    fst (retrieve_hybrid steady_env (fun t => t) "bb" (Some ["bb"%string]) 3
           stocked_world) = Returned out /\
    Sorted score_not_ascending out /\
    length out = 3.
Proof.
  pose (run := retrieve_hybrid steady_env (fun t => t) "bb" (Some ["bb"%string])
                 3 stocked_world).
  assert (H : run = (Returned (returned_or [] (fst run)), snd run))
    by (vm_compute; reflexivity).
  destruct (@retrieve_hybrid_result steady_env (fun t => t) "bb"
              (Some ["bb"%string]) 3 stocked_world (snd run)
              (returned_or [] (fst run)) H) as (rs & _ & Hsorted & _ & _).
  exists (returned_or [] (fst run)). split; [|split].
  - fold run. rewrite H at 1. reflexivity.
  - exact Hsorted.
  - vm_compute. reflexivity.
Defined.


(** A chunk added while the provider's answers lack the vector. *)
Lemma add_documents_dimension_mismatch_witness :
  (add_documents keyless_env [chunk_of "a" "a.txt"] 32 fresh_world
   = (Raised ValueError,
      snd (get_embeddings_batch keyless_env ["a"%string] (ensure_index fresh_world)))
   \/
   add_documents keyless_env [chunk_of "a" "a.txt"] 32 fresh_world
   = (Raised AssertionError,
      snd (get_embeddings_batch keyless_env ["a"%string] (ensure_index fresh_world))))
  /\
  documents
    (store (snd (get_embeddings_batch keyless_env ["a"%string]
                   (ensure_index fresh_world)))) = [].
Proof.
  pose (run := get_embeddings_batch keyless_env ["a"%string]
                 (ensure_index fresh_world)).
  assert (E : run = (Returned [[]], snd run)) by reflexivity.
  assert (Hbad : ~ Forall (fun v : Vec => length v = dim (mkIndex EMBEDDING_DIM []))
                     [[]]).
  { intros H. inversion H as [|? ? Hv _]. discriminate Hv. }
  destruct (@add_documents_dimension_mismatch keyless_env
              [chunk_of "a" "a.txt"] 32 fresh_world (snd run)
              (mkIndex EMBEDDING_DIM []) [[]] eq_refl eq_refl E Hbad)
    as (Hraise & _ & Hd & _).
  split; [exact Hraise|exact Hd].
Defined.

(** The second save on the worn file system. *)
Lemma save_failure_leaves_mixed_files_witness :
  exists w' reader',
    save worn_disk_env worn_world = (Raised OSError, w') /\
    FAISSVectorStore_init w' = (Returned tt, reader') /\
    index_count (store reader') = 2 /\
    documents (store reader') = ["a"%string].
Proof.
  pose (i := returned_or (mkIndex 0 [])
               (match index (store worn_world) with
                | Some j => Returned j
                | None => Raised OSError
                end)).
  assert (Hi : index (store worn_world) = Some i) by (vm_compute; reflexivity).
  assert (H1 : write_reply worn_disk_env (trace worn_world) IndexPath = WriteDone)
    by reflexivity.
  assert (H2 : write_reply worn_disk_env (trace worn_world ++ [WriteCall IndexPath])
                 DocsPath = WriteRefused) by (vm_compute; reflexivity).
  assert (Hd : docs_file (disk worn_world) = Some (Intact ["a"%string]))
    by (vm_compute; reflexivity).
  assert (Hm : meta_file (disk worn_world) = Some (Intact [chunk_of "a" "a.txt"]))
    by (vm_compute; reflexivity).
  destruct (@save_failure_leaves_mixed_files worn_disk_env worn_world i
              ["a"%string] [chunk_of "a" "a.txt"] Hi H1 H2 Hd Hm)
    as (w' & Hs & _ & _ & Hr).
  destruct (Hr w' eq_refl) as (reader' & Hinit & Hidx & Hdocs & _).
  exists w', reader'. split; [exact Hs|]. split; [exact Hinit|].
  split; [|exact Hdocs].
  unfold index_count. rewrite Hidx. vm_compute. reflexivity.
Defined.

(** [a.txt] deleted while the provenance file cannot be written. *)
Lemma delete_document_provenance_failure_witness :
  exists w',
    delete_document full_disk_env "a.txt" listed_world = (Raised OSError, w') /\
    dict_get "h1" (processed_docs w') = None /\
    store w' = store listed_world.
Proof.
  assert (Hne : "h1"%string <> EmptyString) by discriminate.
  assert (Hw : write_reply full_disk_env (trace listed_world) ProvenancePath
               <> WriteDone) by discriminate.
  destruct (@delete_document_provenance_failure full_disk_env "a.txt" "h1"
              (mkDocInfo "a.txt" 2) listed_world eq_refl Hne Hw)
    as (w' & Hdel & _ & Hget & Hs & _).
  exists w'. auto.
Defined.
